(** * ESP tapper driver: the motor positioning and tap-sequencing engine

    A shallow embedding of [MotorController]
    (tappers_service/esp_firmware/ESP_Tapper_Driver/motor_controller.{h,cpp})
    with its callers in command_router.cpp and the status line built in
    mqtt_handler.cpp and http_server.cpp.

    The class is a bundle of mutable fields driven by [void] methods that
    call each other, read the millisecond clock, write two output pins,
    print on the serial line and call the MQTT publisher.  Every method is
    embedded as a computation in ExtLib's state monad over one record that
    holds the object's fields together with the part of the outside world
    the methods touch:

    - [clock]: the value [millis()] returns.  It is 32 bits wide
      ([unsigned long] on the ESP32) and only the environment advances it
      ([advance]); it does not move during a method call.
    - [pinIN1], [pinIN2]: the levels last written by [digitalWrite].
    - [serialLog]: the lines printed with [Serial.println], oldest first.
    - [mqttLog]: the calls made on [mqttHandler], oldest first.
    - [moveStartTime]: the function-local [static] of [checkLimitSwitches]. *)

From Stdlib Require Import ZArith Bool List Ascii String Lia DecimalString.
From ExtLib Require Import Structures.Monad Structures.MonadState Data.Monads.StateMonad.
Import ListNotations.
Import MonadNotation.
Local Open Scope string_scope.
Local Open Scope Z_scope.
Local Open Scope monad_scope.

(** ** Data model (motor_controller.h) *)

Inductive Position := UNKNOWN | MIDDLE | CARD1 | CARD2.

Inductive Operation :=
  | IDLE
  | MOVING_TO_MIDDLE
  | MOVING_TO_CARD1
  | MOVING_TO_CARD2
  | TAPPING_CARD1
  | TAPPING_CARD2
  | MANUAL_OPERATION.

Inductive State := STATE_IDLE | STATE_EXTENDING | STATE_RETRACTING.

Inductive TapState := TAP_IDLE | TAP_EXTENDING | TAP_PAUSE | TAP_RETRACTING | TAP_COMPLETE.

(** Calls received by the external [MQTTHandler]. *)
Inductive MqttCall :=
  | publishStatus (status : string)
  | publishDetailedStatus.

Definition Position_eqb (a b : Position) : bool :=
  match a, b with
  | UNKNOWN, UNKNOWN | MIDDLE, MIDDLE | CARD1, CARD1 | CARD2, CARD2 => true
  | _, _ => false
  end.

Definition Operation_eqb (a b : Operation) : bool :=
  match a, b with
  | IDLE, IDLE | MOVING_TO_MIDDLE, MOVING_TO_MIDDLE
  | MOVING_TO_CARD1, MOVING_TO_CARD1 | MOVING_TO_CARD2, MOVING_TO_CARD2
  | TAPPING_CARD1, TAPPING_CARD1 | TAPPING_CARD2, TAPPING_CARD2
  | MANUAL_OPERATION, MANUAL_OPERATION => true
  | _, _ => false
  end.

Definition State_eqb (a b : State) : bool :=
  match a, b with
  | STATE_IDLE, STATE_IDLE | STATE_EXTENDING, STATE_EXTENDING
  | STATE_RETRACTING, STATE_RETRACTING => true
  | _, _ => false
  end.

Definition TapState_eqb (a b : TapState) : bool :=
  match a, b with
  | TAP_IDLE, TAP_IDLE | TAP_EXTENDING, TAP_EXTENDING | TAP_PAUSE, TAP_PAUSE
  | TAP_RETRACTING, TAP_RETRACTING | TAP_COMPLETE, TAP_COMPLETE => true
  | _, _ => false
  end.

Record MotorController := {
  (* the world the methods act on *)
  clock : Z;
  pinIN1 : bool;
  pinIN2 : bool;
  serialLog : list string;
  mqttLog : list MqttCall;
  (* basic motor state *)
  currentState : State;
  (* legacy tap state *)
  tapState : TapState;
  tapStartTime : Z;
  tapTimeout : Z;
  tapPauseDelay : Z;
  (* time-based operation variables *)
  timedOperation : bool;
  operationStartTime : Z;
  operationDuration : Z;
  timedOperationState : State;
  (* dual card state variables *)
  currentPosition : Position;
  previousPosition : Position;
  currentOperation : Operation;
  dualCardOperationStartTime : Z;
  (* manual timing measurement *)
  manualTimingStart : Z;
  timingMeasurementActive : bool;
  (* power source tracking *)
  is12VPower : bool;
  (* static local of checkLimitSwitches *)
  moveStartTime : Z
}.

(** Field assignment, one setter per field the code writes. *)

Definition set_clock (v : Z) (s : MotorController) : MotorController :=
  Build_MotorController v (pinIN1 s) (pinIN2 s) (serialLog s) (mqttLog s) (currentState
    s) (tapState s) (tapStartTime s) (tapTimeout s) (tapPauseDelay s) (timedOperation s)
    (operationStartTime s) (operationDuration s) (timedOperationState s)
    (currentPosition s) (previousPosition s) (currentOperation s)
    (dualCardOperationStartTime s) (manualTimingStart s) (timingMeasurementActive s)
    (is12VPower s) (moveStartTime s).

Definition set_pinIN1 (v : bool) (s : MotorController) : MotorController :=
  Build_MotorController (clock s) v (pinIN2 s) (serialLog s) (mqttLog s) (currentState
    s) (tapState s) (tapStartTime s) (tapTimeout s) (tapPauseDelay s) (timedOperation s)
    (operationStartTime s) (operationDuration s) (timedOperationState s)
    (currentPosition s) (previousPosition s) (currentOperation s)
    (dualCardOperationStartTime s) (manualTimingStart s) (timingMeasurementActive s)
    (is12VPower s) (moveStartTime s).

Definition set_pinIN2 (v : bool) (s : MotorController) : MotorController :=
  Build_MotorController (clock s) (pinIN1 s) v (serialLog s) (mqttLog s) (currentState
    s) (tapState s) (tapStartTime s) (tapTimeout s) (tapPauseDelay s) (timedOperation s)
    (operationStartTime s) (operationDuration s) (timedOperationState s)
    (currentPosition s) (previousPosition s) (currentOperation s)
    (dualCardOperationStartTime s) (manualTimingStart s) (timingMeasurementActive s)
    (is12VPower s) (moveStartTime s).

Definition set_serialLog (v : list string) (s : MotorController) : MotorController :=
  Build_MotorController (clock s) (pinIN1 s) (pinIN2 s) v (mqttLog s) (currentState s)
    (tapState s) (tapStartTime s) (tapTimeout s) (tapPauseDelay s) (timedOperation s)
    (operationStartTime s) (operationDuration s) (timedOperationState s)
    (currentPosition s) (previousPosition s) (currentOperation s)
    (dualCardOperationStartTime s) (manualTimingStart s) (timingMeasurementActive s)
    (is12VPower s) (moveStartTime s).

Definition set_mqttLog (v : list MqttCall) (s : MotorController) : MotorController :=
  Build_MotorController (clock s) (pinIN1 s) (pinIN2 s) (serialLog s) v (currentState s)
    (tapState s) (tapStartTime s) (tapTimeout s) (tapPauseDelay s) (timedOperation s)
    (operationStartTime s) (operationDuration s) (timedOperationState s)
    (currentPosition s) (previousPosition s) (currentOperation s)
    (dualCardOperationStartTime s) (manualTimingStart s) (timingMeasurementActive s)
    (is12VPower s) (moveStartTime s).

Definition set_currentState (v : State) (s : MotorController) : MotorController :=
  Build_MotorController (clock s) (pinIN1 s) (pinIN2 s) (serialLog s) (mqttLog s) v
    (tapState s) (tapStartTime s) (tapTimeout s) (tapPauseDelay s) (timedOperation s)
    (operationStartTime s) (operationDuration s) (timedOperationState s)
    (currentPosition s) (previousPosition s) (currentOperation s)
    (dualCardOperationStartTime s) (manualTimingStart s) (timingMeasurementActive s)
    (is12VPower s) (moveStartTime s).

Definition set_tapState (v : TapState) (s : MotorController) : MotorController :=
  Build_MotorController (clock s) (pinIN1 s) (pinIN2 s) (serialLog s) (mqttLog s)
    (currentState s) v (tapStartTime s) (tapTimeout s) (tapPauseDelay s) (timedOperation
    s) (operationStartTime s) (operationDuration s) (timedOperationState s)
    (currentPosition s) (previousPosition s) (currentOperation s)
    (dualCardOperationStartTime s) (manualTimingStart s) (timingMeasurementActive s)
    (is12VPower s) (moveStartTime s).

Definition set_tapStartTime (v : Z) (s : MotorController) : MotorController :=
  Build_MotorController (clock s) (pinIN1 s) (pinIN2 s) (serialLog s) (mqttLog s)
    (currentState s) (tapState s) v (tapTimeout s) (tapPauseDelay s) (timedOperation s)
    (operationStartTime s) (operationDuration s) (timedOperationState s)
    (currentPosition s) (previousPosition s) (currentOperation s)
    (dualCardOperationStartTime s) (manualTimingStart s) (timingMeasurementActive s)
    (is12VPower s) (moveStartTime s).

Definition set_timedOperation (v : bool) (s : MotorController) : MotorController :=
  Build_MotorController (clock s) (pinIN1 s) (pinIN2 s) (serialLog s) (mqttLog s)
    (currentState s) (tapState s) (tapStartTime s) (tapTimeout s) (tapPauseDelay s) v
    (operationStartTime s) (operationDuration s) (timedOperationState s)
    (currentPosition s) (previousPosition s) (currentOperation s)
    (dualCardOperationStartTime s) (manualTimingStart s) (timingMeasurementActive s)
    (is12VPower s) (moveStartTime s).

Definition set_operationStartTime (v : Z) (s : MotorController) : MotorController :=
  Build_MotorController (clock s) (pinIN1 s) (pinIN2 s) (serialLog s) (mqttLog s)
    (currentState s) (tapState s) (tapStartTime s) (tapTimeout s) (tapPauseDelay s)
    (timedOperation s) v (operationDuration s) (timedOperationState s) (currentPosition
    s) (previousPosition s) (currentOperation s) (dualCardOperationStartTime s)
    (manualTimingStart s) (timingMeasurementActive s) (is12VPower s) (moveStartTime s).

Definition set_operationDuration (v : Z) (s : MotorController) : MotorController :=
  Build_MotorController (clock s) (pinIN1 s) (pinIN2 s) (serialLog s) (mqttLog s)
    (currentState s) (tapState s) (tapStartTime s) (tapTimeout s) (tapPauseDelay s)
    (timedOperation s) (operationStartTime s) v (timedOperationState s) (currentPosition
    s) (previousPosition s) (currentOperation s) (dualCardOperationStartTime s)
    (manualTimingStart s) (timingMeasurementActive s) (is12VPower s) (moveStartTime s).

Definition set_timedOperationState (v : State) (s : MotorController) : MotorController :=
  Build_MotorController (clock s) (pinIN1 s) (pinIN2 s) (serialLog s) (mqttLog s)
    (currentState s) (tapState s) (tapStartTime s) (tapTimeout s) (tapPauseDelay s)
    (timedOperation s) (operationStartTime s) (operationDuration s) v (currentPosition
    s) (previousPosition s) (currentOperation s) (dualCardOperationStartTime s)
    (manualTimingStart s) (timingMeasurementActive s) (is12VPower s) (moveStartTime s).

Definition set_currentPosition (v : Position) (s : MotorController) : MotorController :=
  Build_MotorController (clock s) (pinIN1 s) (pinIN2 s) (serialLog s) (mqttLog s)
    (currentState s) (tapState s) (tapStartTime s) (tapTimeout s) (tapPauseDelay s)
    (timedOperation s) (operationStartTime s) (operationDuration s) (timedOperationState
    s) v (previousPosition s) (currentOperation s) (dualCardOperationStartTime s)
    (manualTimingStart s) (timingMeasurementActive s) (is12VPower s) (moveStartTime s).

Definition set_previousPosition (v : Position) (s : MotorController) : MotorController :=
  Build_MotorController (clock s) (pinIN1 s) (pinIN2 s) (serialLog s) (mqttLog s)
    (currentState s) (tapState s) (tapStartTime s) (tapTimeout s) (tapPauseDelay s)
    (timedOperation s) (operationStartTime s) (operationDuration s) (timedOperationState
    s) (currentPosition s) v (currentOperation s) (dualCardOperationStartTime s)
    (manualTimingStart s) (timingMeasurementActive s) (is12VPower s) (moveStartTime s).

Definition set_currentOperation (v : Operation) (s : MotorController) : MotorController :=
  Build_MotorController (clock s) (pinIN1 s) (pinIN2 s) (serialLog s) (mqttLog s)
    (currentState s) (tapState s) (tapStartTime s) (tapTimeout s) (tapPauseDelay s)
    (timedOperation s) (operationStartTime s) (operationDuration s) (timedOperationState
    s) (currentPosition s) (previousPosition s) v (dualCardOperationStartTime s)
    (manualTimingStart s) (timingMeasurementActive s) (is12VPower s) (moveStartTime s).

Definition set_dualCardOperationStartTime (v : Z) (s : MotorController) : MotorController :=
  Build_MotorController (clock s) (pinIN1 s) (pinIN2 s) (serialLog s) (mqttLog s)
    (currentState s) (tapState s) (tapStartTime s) (tapTimeout s) (tapPauseDelay s)
    (timedOperation s) (operationStartTime s) (operationDuration s) (timedOperationState
    s) (currentPosition s) (previousPosition s) (currentOperation s) v
    (manualTimingStart s) (timingMeasurementActive s) (is12VPower s) (moveStartTime s).

Definition set_manualTimingStart (v : Z) (s : MotorController) : MotorController :=
  Build_MotorController (clock s) (pinIN1 s) (pinIN2 s) (serialLog s) (mqttLog s)
    (currentState s) (tapState s) (tapStartTime s) (tapTimeout s) (tapPauseDelay s)
    (timedOperation s) (operationStartTime s) (operationDuration s) (timedOperationState
    s) (currentPosition s) (previousPosition s) (currentOperation s)
    (dualCardOperationStartTime s) v (timingMeasurementActive s) (is12VPower s)
    (moveStartTime s).

Definition set_timingMeasurementActive (v : bool) (s : MotorController) : MotorController :=
  Build_MotorController (clock s) (pinIN1 s) (pinIN2 s) (serialLog s) (mqttLog s)
    (currentState s) (tapState s) (tapStartTime s) (tapTimeout s) (tapPauseDelay s)
    (timedOperation s) (operationStartTime s) (operationDuration s) (timedOperationState
    s) (currentPosition s) (previousPosition s) (currentOperation s)
    (dualCardOperationStartTime s) (manualTimingStart s) v (is12VPower s) (moveStartTime
    s).

Definition set_is12VPower (v : bool) (s : MotorController) : MotorController :=
  Build_MotorController (clock s) (pinIN1 s) (pinIN2 s) (serialLog s) (mqttLog s)
    (currentState s) (tapState s) (tapStartTime s) (tapTimeout s) (tapPauseDelay s)
    (timedOperation s) (operationStartTime s) (operationDuration s) (timedOperationState
    s) (currentPosition s) (previousPosition s) (currentOperation s)
    (dualCardOperationStartTime s) (manualTimingStart s) (timingMeasurementActive s) v
    (moveStartTime s).

Definition set_moveStartTime (v : Z) (s : MotorController) : MotorController :=
  Build_MotorController (clock s) (pinIN1 s) (pinIN2 s) (serialLog s) (mqttLog s)
    (currentState s) (tapState s) (tapStartTime s) (tapTimeout s) (tapPauseDelay s)
    (timedOperation s) (operationStartTime s) (operationDuration s) (timedOperationState
    s) (currentPosition s) (previousPosition s) (currentOperation s)
    (dualCardOperationStartTime s) (manualTimingStart s) (timingMeasurementActive s)
    (is12VPower s) v.

(** ** Methods as state computations *)

Definition Method := state MotorController.

Definition read {A : Type} (field : MotorController -> A) : Method A := gets field.

Definition assign {A : Type} (setter : A -> MotorController -> MotorController) (v : A)
  : Method unit :=
  s <- get ;; put (setter v s).

(** The state a method leaves behind, and the value it returns. *)
Definition exec {A : Type} (m : Method A) (s : MotorController) : MotorController :=
  execState m s.

Definition value {A : Type} (m : Method A) (s : MotorController) : A :=
  evalState m s.

(** ** Arduino primitives *)

(** [unsigned long] is 32 bits wide; subtraction wraps around. *)
Definition ULONG_RANGE : Z := 2 ^ 32.

Definition usub (a b : Z) : Z := (a - b) mod ULONG_RANGE.

Definition millis : Method Z := read clock.

(** The environment lets [d] milliseconds pass between two method calls. *)
Definition advance (d : Z) (s : MotorController) : MotorController :=
  set_clock ((clock s + d) mod ULONG_RANGE) s.

Inductive Pin := IN1_PIN | IN2_PIN.

Definition HIGH : bool := true.
Definition LOW : bool := false.

Definition digitalWrite (pin : Pin) (level : bool) : Method unit :=
  match pin with
  | IN1_PIN => assign set_pinIN1 level
  | IN2_PIN => assign set_pinIN2 level
  end.

Definition Serial_println (msg : string) : Method unit :=
  s <- get ;; put (set_serialLog (serialLog s ++ [msg]) s).

(** [String(n)] for an [unsigned long]: its decimal digits. *)
Definition String_of (n : Z) : string :=
  NilZero.string_of_uint (N.to_uint (Z.to_N n)).

Definition mqttHandler_publishStatus (status : string) : Method unit :=
  s <- get ;; put (set_mqttLog (mqttLog s ++ [publishStatus status]) s).

Definition mqttHandler_publishDetailedStatus : Method unit :=
  s <- get ;; put (set_mqttLog (mqttLog s ++ [publishDetailedStatus]) s).

(** ** Timing constants (motor_controller.h, lines 114-137) *)

(* 12V external power (fast), measured values *)
Definition CARD1_FROM_HOME_12V_MS : Z := 1100.
Definition CARD1_TAP_PAUSE_12V_MS : Z := 1000.
Definition CARD1_TO_HOME_12V_MS : Z := 1100.
Definition CARD2_FROM_HOME_12V_MS : Z := 1300.
Definition CARD2_TAP_PAUSE_12V_MS : Z := 1000.
Definition CARD2_TO_HOME_12V_MS : Z := 1300.
Definition HOME_FROM_EXTENDED_12V_MS : Z := 1306.
Definition HOME_FROM_RETRACTED_12V_MS : Z := 1284.
Definition EXTEND_FULL_12V_MS : Z := 2568.
Definition RETRACT_FULL_12V_MS : Z := 2611.

(* USB power (slow) *)
Definition CARD1_FROM_HOME_USB_MS : Z := 2530.
Definition CARD1_TAP_PAUSE_USB_MS : Z := 1000.
Definition CARD1_TO_HOME_USB_MS : Z := 2530.
Definition CARD2_FROM_HOME_USB_MS : Z := 2990.
Definition CARD2_TAP_PAUSE_USB_MS : Z := 1000.
Definition CARD2_TO_HOME_USB_MS : Z := 2990.
Definition HOME_FROM_EXTENDED_USB_MS : Z := 3004.
Definition HOME_FROM_RETRACTED_USB_MS : Z := 2953.
Definition EXTEND_FULL_USB_MS : Z := 5906.
Definition RETRACT_FULL_USB_MS : Z := 6005.

(** ** Status strings and timing helpers (const methods) *)

Definition getPowerSourceString (s : MotorController) : string :=
  if is12VPower s then "12V" else "USB".

Definition getPositionString (s : MotorController) : string :=
  match currentPosition s with
  | UNKNOWN => "unknown"
  | MIDDLE => "middle"
  | CARD1 => "card1"
  | CARD2 => "card2"
  end.

Definition getOperationString (s : MotorController) : string :=
  match currentOperation s with
  | IDLE => "idle"
  | MOVING_TO_MIDDLE => "moving_to_middle"
  | MOVING_TO_CARD1 => "moving_to_card1"
  | MOVING_TO_CARD2 => "moving_to_card2"
  | TAPPING_CARD1 => "tapping_card1"
  | TAPPING_CARD2 => "tapping_card2"
  | MANUAL_OPERATION => "manual_operation"
  end.

Definition getCard1FromHomeMs (s : MotorController) : Z :=
  if is12VPower s then CARD1_FROM_HOME_12V_MS else CARD1_FROM_HOME_USB_MS.

Definition getCard1TapPauseMs (s : MotorController) : Z :=
  if is12VPower s then CARD1_TAP_PAUSE_12V_MS else CARD1_TAP_PAUSE_USB_MS.

Definition getCard1ToHomeMs (s : MotorController) : Z :=
  if is12VPower s then CARD1_TO_HOME_12V_MS else CARD1_TO_HOME_USB_MS.

Definition getCard2FromHomeMs (s : MotorController) : Z :=
  if is12VPower s then CARD2_FROM_HOME_12V_MS else CARD2_FROM_HOME_USB_MS.

Definition getCard2TapPauseMs (s : MotorController) : Z :=
  if is12VPower s then CARD2_TAP_PAUSE_12V_MS else CARD2_TAP_PAUSE_USB_MS.

Definition getCard2ToHomeMs (s : MotorController) : Z :=
  if is12VPower s then CARD2_TO_HOME_12V_MS else CARD2_TO_HOME_USB_MS.

Definition getHomeFromExtendedMs (s : MotorController) : Z :=
  if is12VPower s then HOME_FROM_EXTENDED_12V_MS else HOME_FROM_EXTENDED_USB_MS.

Definition getHomeFromRetractedMs (s : MotorController) : Z :=
  if is12VPower s then HOME_FROM_RETRACTED_12V_MS else HOME_FROM_RETRACTED_USB_MS.

Definition getExtendFullMs (s : MotorController) : Z :=
  if is12VPower s then EXTEND_FULL_12V_MS else EXTEND_FULL_USB_MS.

Definition getRetractFullMs (s : MotorController) : Z :=
  if is12VPower s then RETRACT_FULL_12V_MS else RETRACT_FULL_USB_MS.

Definition isTapping (s : MotorController) : bool :=
  negb (TapState_eqb (tapState s) TAP_IDLE)
  || timedOperation s
  || negb (Operation_eqb (currentOperation s) IDLE).

Definition getState (s : MotorController) : string :=
  (* PRIORITY 1: dual card operations *)
  if negb (Operation_eqb (currentOperation s) IDLE) then getOperationString s
  (* PRIORITY 2: timed operation *)
  else if timedOperation s then
    match timedOperationState s with
    | STATE_EXTENDING => "timed_extending"
    | STATE_RETRACTING => "timed_retracting"
    | STATE_IDLE => "timed_operation"
    end
  (* PRIORITY 3: legacy tap states *)
  else if negb (TapState_eqb (tapState s) TAP_IDLE) then
    match tapState s with
    | TAP_EXTENDING => "tap_extending"
    | TAP_PAUSE => "tap_pausing"
    | TAP_RETRACTING => "tap_retracting"
    | TAP_COMPLETE => "tap_complete"
    | TAP_IDLE => "tapping"
    end
  (* PRIORITY 4: basic motor states *)
  else
    match currentState s with
    | STATE_EXTENDING => "extending"
    | STATE_RETRACTING => "retracting"
    | STATE_IDLE => "idle"
    end.

Definition getTimingInfo (s : MotorController) : string :=
  if negb (timingMeasurementActive s) then "No timing measurement active"
  else
    let elapsed := usub (clock s) (manualTimingStart s) in
    "Manual timing: " ++ String_of elapsed ++ "ms (active since manual start)".

(** ** Basic motor controls *)

Definition extend : Method unit :=
  digitalWrite IN1_PIN HIGH ;;
  digitalWrite IN2_PIN LOW ;;
  assign set_currentState STATE_EXTENDING ;;
  Serial_println "[Motor] Extending..." ;;
  mqttHandler_publishStatus "extending".

Definition retract : Method unit :=
  digitalWrite IN1_PIN LOW ;;
  digitalWrite IN2_PIN HIGH ;;
  assign set_currentState STATE_RETRACTING ;;
  Serial_println "[Motor] Retracting..." ;;
  mqttHandler_publishStatus "retracting".

Definition stop : Method unit :=
  digitalWrite IN1_PIN LOW ;;
  digitalWrite IN2_PIN LOW ;;
  assign set_currentState STATE_IDLE ;;
  Serial_println "[Motor] Stopped" ;;
  mqttHandler_publishStatus "idle".

(** The object as its in-class initialisers leave it, in a world whose
    clock reads [t0] and whose pins are low. *)
Definition constructed (t0 : Z) : MotorController :=
  {| clock := t0; pinIN1 := LOW; pinIN2 := LOW; serialLog := []; mqttLog := [];
     currentState := STATE_IDLE;
     tapState := TAP_IDLE; tapStartTime := 0; tapTimeout := 2000; tapPauseDelay := 200;
     timedOperation := false; operationStartTime := 0; operationDuration := 0;
     timedOperationState := STATE_IDLE;
     currentPosition := UNKNOWN; previousPosition := UNKNOWN; currentOperation := IDLE;
     dualCardOperationStartTime := 0;
     manualTimingStart := 0; timingMeasurementActive := false;
     is12VPower := true;
     moveStartTime := 0 |}.

(* pinMode only configures the pins as outputs *)
Definition init : Method unit :=
  stop ;;
  assign set_currentPosition UNKNOWN ;;
  assign set_previousPosition UNKNOWN ;;
  assign set_currentOperation IDLE ;;
  Serial_println "[Motor] Enhanced dual card relay-mimicking controller initialized" ;;
  Serial_println "  - Dual card support with position tracking" ;;
  Serial_println "  - Timing-based positioning (no sensors)" ;;
  Serial_println "  - Measured timing constants for accurate positioning" ;;
  Serial_println "  - Power-aware timing (12V/USB modes)".

(** ** Time-based operations (relay mimicking) *)

Definition extendForTime (duration_ms : Z) : Method unit :=
  Serial_println ("[Motor] Extend for " ++ String_of duration_ms ++ "ms") ;;
  (* stop any current timed operation *)
  pending <- read timedOperation ;;
  (if pending then stop ;; assign set_timedOperation false else ret tt) ;;
  (* start extend operation *)
  extend ;;
  now <- millis ;;
  assign set_operationStartTime now ;;
  assign set_operationDuration duration_ms ;;
  assign set_timedOperationState STATE_EXTENDING ;;
  assign set_timedOperation true.

Definition retractForTime (duration_ms : Z) : Method unit :=
  Serial_println ("[Motor] Retract for " ++ String_of duration_ms ++ "ms") ;;
  pending <- read timedOperation ;;
  (if pending then stop ;; assign set_timedOperation false else ret tt) ;;
  retract ;;
  now <- millis ;;
  assign set_operationStartTime now ;;
  assign set_operationDuration duration_ms ;;
  assign set_timedOperationState STATE_RETRACTING ;;
  assign set_timedOperation true.

Definition updateTimedOperations : Method unit :=
  pending <- read timedOperation ;;
  if negb pending then ret tt
  else
    now <- millis ;;
    start <- read operationStartTime ;;
    let elapsed := usub now start in
    duration <- read operationDuration ;;
    if elapsed >=? duration then
      Serial_println ("[Motor] Timed operation complete (" ++ String_of elapsed ++ "ms)") ;;
      stop ;;
      assign set_timedOperation false ;;
      (* publish completion status *)
      kind <- read timedOperationState ;;
      match kind with
      | STATE_EXTENDING => mqttHandler_publishStatus "extend_complete"
      | STATE_RETRACTING => mqttHandler_publishStatus "retract_complete"
      | STATE_IDLE => mqttHandler_publishStatus "operation_complete"
      end
    else ret tt.

(** ** Legacy tap functions *)

Definition startTap : Method unit :=
  Serial_println "[Motor] Starting legacy tap sequence" ;;
  extend ;;
  assign set_tapState TAP_EXTENDING ;;
  now <- millis ;;
  assign set_tapStartTime now.

Definition updateTap : Method unit :=
  ts <- read tapState ;;
  currentTime <- millis ;;
  start <- read tapStartTime ;;
  match ts with
  | TAP_IDLE => ret tt
  | TAP_EXTENDING =>
      timeout <- read tapTimeout ;;
      if usub currentTime start >? timeout then
        Serial_println "[Motor] Legacy tap: Extend timeout, pausing" ;;
        stop ;;
        assign set_tapState TAP_PAUSE ;;
        assign set_tapStartTime currentTime
      else ret tt
  | TAP_PAUSE =>
      pause <- read tapPauseDelay ;;
      if usub currentTime start >? pause then
        Serial_println "[Motor] Legacy tap: Starting retract" ;;
        retract ;;
        assign set_tapState TAP_RETRACTING ;;
        assign set_tapStartTime currentTime
      else ret tt
  | TAP_RETRACTING =>
      timeout <- read tapTimeout ;;
      if usub currentTime start >? timeout then
        Serial_println "[Motor] Legacy tap: Retract timeout, stopping" ;;
        stop ;;
        assign set_tapState TAP_COMPLETE
      else ret tt
  | TAP_COMPLETE =>
      Serial_println "[Motor] Legacy tap sequence completed" ;;
      assign set_tapState TAP_IDLE ;;
      mqttHandler_publishStatus "idle"
  end.

Definition tap : Method unit := startTap.

(** ** Safety timeout *)

Definition SAFETY_TIMEOUT_MS : Z := 5000.

Definition checkLimitSwitches : Method unit :=
  (* skip safety timeout if any controlled operation is active *)
  controlled <- read isTapping ;;
  if controlled then assign set_moveStartTime 0
  else
    cs <- read currentState ;;
    if State_eqb cs STATE_EXTENDING || State_eqb cs STATE_RETRACTING then
      armed <- read moveStartTime ;;
      now <- millis ;;
      if armed =? 0 then assign set_moveStartTime now
      else if usub now armed >? SAFETY_TIMEOUT_MS then
        Serial_println "[Motor] Safety timeout - AUTO STOP (uncontrolled movement)" ;;
        stop ;;
        assign set_moveStartTime 0
      else ret tt
    else assign set_moveStartTime 0.

(** ** Internal dual card operations *)

Definition startDualCardOperation (op : Operation) : Method unit :=
  opname <- read getOperationString ;;
  now <- millis ;;
  Serial_println ("[DualCard] Starting operation: " ++ opname ++ " at " ++ String_of now ++ "ms") ;;
  posname <- read getPositionString ;;
  Serial_println ("[DualCard] From position: " ++ posname) ;;
  pos <- read currentPosition ;;
  assign set_previousPosition pos ;;
  assign set_currentOperation op ;;
  assign set_dualCardOperationStartTime now.

Definition completeDualCardOperation : Method unit :=
  now <- millis ;;
  start <- read dualCardOperationStartTime ;;
  let operationDuration := usub now start in
  Serial_println ("[DualCard] Operation completed after " ++ String_of operationDuration ++ "ms") ;;
  posname <- read getPositionString ;;
  Serial_println ("[DualCard] Final position: " ++ posname) ;;
  stop ;;
  assign set_currentOperation IDLE ;;
  mqttHandler_publishDetailedStatus.

Definition isDualCardOperationTimedOut (timeoutMs : Z) : Method bool :=
  now <- millis ;;
  start <- read dualCardOperationStartTime ;;
  ret (usub now start >=? timeoutMs).

(** ** Dual card functions *)

Definition resetToMiddle : Method unit :=
  op <- read currentOperation ;;
  if negb (Operation_eqb op IDLE) then
    Serial_println "[DualCard] Cannot reset - operation in progress"
  else
    posname <- read getPositionString ;;
    Serial_println ("[DualCard] Resetting to middle position from: " ++ posname) ;;
    pos <- read currentPosition ;;
    match pos with
    | MIDDLE => Serial_println "[DualCard] Already at middle position"
    | CARD1 =>
        (* from Card 1 (extended), retract to middle *)
        t <- read getCard1ToHomeMs ;;
        Serial_println ("[DualCard] From Card 1: retracting " ++ String_of t ++ "ms to middle") ;;
        retract ;;
        startDualCardOperation MOVING_TO_MIDDLE
    | CARD2 =>
        (* from Card 2 (retracted), extend to middle *)
        t <- read getCard2ToHomeMs ;;
        Serial_println ("[DualCard] From Card 2: extending " ++ String_of t ++ "ms to middle") ;;
        extend ;;
        startDualCardOperation MOVING_TO_MIDDLE
    | UNKNOWN =>
        (* unknown position: full retract first, then partial extend to middle *)
        Serial_println "[DualCard] Unknown position, doing full reset sequence" ;;
        retract ;;
        startDualCardOperation MOVING_TO_MIDDLE
    end.

Definition tapCard1 : Method unit :=
  op <- read currentOperation ;;
  if negb (Operation_eqb op IDLE) then
    Serial_println "[DualCard] Cannot tap Card 1 - operation in progress"
  else
    Serial_println "[DualCard] Starting Card 1 tap - extend from middle" ;;
    t1 <- read getCard1FromHomeMs ;;
    t2 <- read getCard1TapPauseMs ;;
    t3 <- read getCard1ToHomeMs ;;
    Serial_println ("[DualCard] Sequence: extend " ++ String_of t1 ++ "ms → pause "
                    ++ String_of t2 ++ "ms → retract " ++ String_of t3 ++ "ms") ;;
    power <- read getPowerSourceString ;;
    Serial_println ("[DualCard] Power mode: " ++ power) ;;
    pos <- read currentPosition ;;
    if negb (Position_eqb pos MIDDLE) then
      Serial_println "[DualCard] Must be at middle position first - resetting" ;;
      resetToMiddle
    else
      (* Card 1 = extended position from middle *)
      Serial_println "[DualCard] Step 1: Extending to Card 1 position..." ;;
      extend ;;
      startDualCardOperation MOVING_TO_CARD1.

Definition tapCard2 : Method unit :=
  op <- read currentOperation ;;
  if negb (Operation_eqb op IDLE) then
    Serial_println "[DualCard] Cannot tap Card 2 - operation in progress"
  else
    Serial_println "[DualCard] Starting Card 2 tap - retract from middle" ;;
    t1 <- read getCard2FromHomeMs ;;
    t2 <- read getCard2TapPauseMs ;;
    t3 <- read getCard2ToHomeMs ;;
    Serial_println ("[DualCard] Sequence: retract " ++ String_of t1 ++ "ms → pause "
                    ++ String_of t2 ++ "ms → extend " ++ String_of t3 ++ "ms") ;;
    power <- read getPowerSourceString ;;
    Serial_println ("[DualCard] Power mode: " ++ power) ;;
    pos <- read currentPosition ;;
    if negb (Position_eqb pos MIDDLE) then
      Serial_println "[DualCard] Must be at middle position first - resetting" ;;
      resetToMiddle
    else
      (* Card 2 = retracted position from middle *)
      Serial_println "[DualCard] Step 1: Retracting to Card 2 position..." ;;
      retract ;;
      startDualCardOperation MOVING_TO_CARD2.

Definition updateDualCardOperations : Method unit :=
  op <- read currentOperation ;;
  match op with
  | IDLE => ret tt
  | MOVING_TO_MIDDLE =>
      (* use exact timing based on where we came from *)
      prev <- read previousPosition ;;
      match prev with
      | CARD1 =>
          (* moving from Card 1 (extended) to home *)
          t <- read getCard1ToHomeMs ;;
          due <- isDualCardOperationTimedOut t ;;
          if due then
            assign set_currentPosition MIDDLE ;;
            completeDualCardOperation ;;
            Serial_println "[DualCard] Reached home from Card 1"
          else ret tt
      | CARD2 =>
          (* moving from Card 2 (retracted) to home *)
          t <- read getCard2ToHomeMs ;;
          due <- isDualCardOperationTimedOut t ;;
          if due then
            assign set_currentPosition MIDDLE ;;
            completeDualCardOperation ;;
            Serial_println "[DualCard] Reached home from Card 2"
          else ret tt
      | UNKNOWN =>
          (* step 1: full retract (first time through) *)
          t <- read getRetractFullMs ;;
          due <- isDualCardOperationTimedOut t ;;
          if due then
            Serial_println
              "[DualCard] Step 1 complete - fully retracted, now extending to middle" ;;
            extend ;;
            assign set_previousPosition CARD2 ;;
            now <- millis ;;
            assign set_dualCardOperationStartTime now
          else ret tt
      | MIDDLE =>
          (* step 2: extend from fully retracted to middle *)
          t <- read getHomeFromRetractedMs ;;
          due <- isDualCardOperationTimedOut t ;;
          if due then
            assign set_currentPosition MIDDLE ;;
            completeDualCardOperation ;;
            Serial_println
              "[DualCard] Reached middle from unknown position (2-step process complete)"
          else ret tt
      end
  | MOVING_TO_CARD1 =>
      t <- read getCard1FromHomeMs ;;
      due <- isDualCardOperationTimedOut t ;;
      if due then
        Serial_println "[DualCard] Reached Card 1, starting tap pause" ;;
        assign set_currentPosition CARD1 ;;
        stop ;;
        assign set_currentOperation TAPPING_CARD1 ;;
        now <- millis ;;
        assign set_dualCardOperationStartTime now
      else ret tt
  | MOVING_TO_CARD2 =>
      t <- read getCard2FromHomeMs ;;
      due <- isDualCardOperationTimedOut t ;;
      if due then
        Serial_println "[DualCard] Reached Card 2, starting tap pause" ;;
        assign set_currentPosition CARD2 ;;
        stop ;;
        assign set_currentOperation TAPPING_CARD2 ;;
        now <- millis ;;
        assign set_dualCardOperationStartTime now
      else ret tt
  | TAPPING_CARD1 =>
      t <- read getCard1TapPauseMs ;;
      due <- isDualCardOperationTimedOut t ;;
      if due then
        (* tap complete, return to home by retracting *)
        back <- read getCard1ToHomeMs ;;
        Serial_println ("[DualCard] Card 1 tap complete, retracting " ++ String_of back
                        ++ "ms to home") ;;
        retract ;;
        assign set_previousPosition CARD1 ;;
        assign set_currentOperation MOVING_TO_MIDDLE ;;
        now <- millis ;;
        assign set_dualCardOperationStartTime now
      else ret tt
  | TAPPING_CARD2 =>
      t <- read getCard2TapPauseMs ;;
      due <- isDualCardOperationTimedOut t ;;
      if due then
        (* tap complete, return to home by extending *)
        back <- read getCard2ToHomeMs ;;
        Serial_println ("[DualCard] Card 2 tap complete, extending " ++ String_of back
                        ++ "ms to home") ;;
        extend ;;
        assign set_previousPosition CARD2 ;;
        assign set_currentOperation MOVING_TO_MIDDLE ;;
        now <- millis ;;
        assign set_dualCardOperationStartTime now
      else ret tt
  | MANUAL_OPERATION => ret tt
  end.

(** ** Calibration functions *)

Definition startTimingMeasurement : Method unit :=
  now <- millis ;;
  assign set_manualTimingStart now ;;
  assign set_timingMeasurementActive true ;;
  Serial_println "[Timing] Started measurement - use manual stop to capture duration".

Definition manualExtend : Method unit :=
  op <- read currentOperation ;;
  (if negb (Operation_eqb op IDLE) then
     Serial_println "[Manual] Stopping current operation for manual control" ;;
     completeDualCardOperation
   else ret tt) ;;
  Serial_println "[Manual] Manual extend started" ;;
  startTimingMeasurement ;;
  extend ;;
  assign set_currentPosition UNKNOWN ;;
  assign set_currentOperation MANUAL_OPERATION.

Definition manualRetract : Method unit :=
  op <- read currentOperation ;;
  (if negb (Operation_eqb op IDLE) then
     Serial_println "[Manual] Stopping current operation for manual control" ;;
     completeDualCardOperation
   else ret tt) ;;
  Serial_println "[Manual] Manual retract started" ;;
  startTimingMeasurement ;;
  retract ;;
  assign set_currentPosition UNKNOWN ;;
  assign set_currentOperation MANUAL_OPERATION.

Definition manualStop : Method unit :=
  op <- read currentOperation ;;
  (if negb (Operation_eqb op IDLE) then
     Serial_println "[Manual] Stopping current operation" ;;
     completeDualCardOperation
   else
     Serial_println "[Manual] Manual stop" ;;
     stop) ;;
  assign set_currentOperation IDLE ;;
  (* capture timing measurement if active *)
  active <- read timingMeasurementActive ;;
  if active then
    now <- millis ;;
    start <- read manualTimingStart ;;
    let elapsed := usub now start in
    Serial_println ("[Timing] CAPTURED: " ++ String_of elapsed ++ "ms") ;;
    Serial_println "[Timing] Use this value in your timing constants" ;;
    assign set_timingMeasurementActive false
  else ret tt.

Definition captureCurrentAsMiddle : Method unit :=
  (* stop any current operation *)
  op <- read currentOperation ;;
  (if negb (Operation_eqb op IDLE) then completeDualCardOperation else ret tt) ;;
  (* set current position as middle *)
  assign set_currentPosition MIDDLE ;;
  Serial_println "[Calibration] Current position captured as MIDDLE" ;;
  Serial_println "[Calibration] You can now use tap functions from this position" ;;
  mqttHandler_publishDetailedStatus.

(** ** Power source management *)

Definition setPowerSource12V : Method unit :=
  assign set_is12VPower true ;;
  Serial_println "[Power] Set to 12V external power - using fast measured timing".

Definition setPowerSourceUSB : Method unit :=
  assign set_is12VPower false ;;
  Serial_println "[Power] Set to USB power - using slow timing (2.3x multiplier)".

(** ** Runs: the host loop polling one update entry point

    Between two polls the environment lets some milliseconds pass.  A gap
    [d] is any integer: [advance] reduces the new reading modulo 2^32, so
    every 32-bit reading can follow every other. *)

Definition poll (d : Z) (s : MotorController) : MotorController :=
  exec updateDualCardOperations (advance d s).

Fixpoint polls (ds : list Z) (s : MotorController) : MotorController :=
  match ds with
  | [] => s
  | d :: ds' => polls ds' (poll d s)
  end.

(** [currentOperation] as observed after each poll. *)
Fixpoint operations (ds : list Z) (s : MotorController) : list Operation :=
  match ds with
  | [] => []
  | d :: ds' => currentOperation (poll d s) :: operations ds' (poll d s)
  end.

(** The sequence of operations visited: consecutive repeats collapsed. *)
Fixpoint visited (ops : list Operation) : list Operation :=
  match ops with
  | [] => []
  | a :: rest =>
      match rest with
      | [] => [a]
      | b :: _ => if Operation_eqb a b then visited rest else a :: visited rest
      end
  end.

Definition timedPoll (d : Z) (s : MotorController) : MotorController :=
  exec updateTimedOperations (advance d s).

Fixpoint timedPolls (ds : list Z) (s : MotorController) : MotorController :=
  match ds with
  | [] => s
  | d :: ds' => timedPolls ds' (timedPoll d s)
  end.

Definition watchdogPoll (d : Z) (s : MotorController) : MotorController :=
  exec checkLimitSwitches (advance d s).

Fixpoint watchdogPolls (ds : list Z) (s : MotorController) : MotorController :=
  match ds with
  | [] => s
  | d :: ds' => watchdogPolls ds' (watchdogPoll d s)
  end.

(** The clock readings a run of polls sees, starting after reading [c]. *)
Fixpoint readings (c : Z) (ds : list Z) : list Z :=
  match ds with
  | [] => []
  | d :: ds' => (c + d) mod ULONG_RANGE :: readings ((c + d) mod ULONG_RANGE) ds'
  end.

(** ** Vocabulary of the statements *)

(** A rejected call: the state with one more diagnostic line on the serial
    port and nothing else changed. *)
Definition rejected (line : string) (s : MotorController) : MotorController :=
  set_serialLog (serialLog s ++ [line]) s.

(** The three inner switches of [getState]. *)
Definition timedOperationLabel (k : State) : string :=
  match k with
  | STATE_EXTENDING => "timed_extending"
  | STATE_RETRACTING => "timed_retracting"
  | STATE_IDLE => "timed_operation"
  end.

Definition tapStateLabel (t : TapState) : string :=
  match t with
  | TAP_EXTENDING => "tap_extending"
  | TAP_PAUSE => "tap_pausing"
  | TAP_RETRACTING => "tap_retracting"
  | TAP_COMPLETE => "tap_complete"
  | TAP_IDLE => "tapping"
  end.

Definition driveStateLabel (k : State) : string :=
  match k with
  | STATE_EXTENDING => "extending"
  | STATE_RETRACTING => "retracting"
  | STATE_IDLE => "idle"
  end.

(** The completion switch of [updateTimedOperations]. *)
Definition completionStatus (k : State) : string :=
  match k with
  | STATE_EXTENDING => "extend_complete"
  | STATE_RETRACTING => "retract_complete"
  | STATE_IDLE => "operation_complete"
  end.

(** The drive is powered: exactly one of the two outputs is high. *)
Definition driving (s : MotorController) : bool :=
  State_eqb (currentState s) STATE_EXTENDING || State_eqb (currentState s) STATE_RETRACTING.

(** ** The two timing profiles as tables *)

Inductive Duration :=
  | CARD1_FROM_HOME
  | CARD1_TAP_PAUSE
  | CARD1_TO_HOME
  | CARD2_FROM_HOME
  | CARD2_TAP_PAUSE
  | CARD2_TO_HOME
  | HOME_FROM_EXTENDED
  | HOME_FROM_RETRACTED
  | EXTEND_FULL
  | RETRACT_FULL.

Definition allDurations : list Duration :=
  [CARD1_FROM_HOME; CARD1_TAP_PAUSE; CARD1_TO_HOME; CARD2_FROM_HOME; CARD2_TAP_PAUSE;
   CARD2_TO_HOME; HOME_FROM_EXTENDED; HOME_FROM_RETRACTED; EXTEND_FULL; RETRACT_FULL].

Definition profile12V (d : Duration) : Z :=
  match d with
  | CARD1_FROM_HOME => CARD1_FROM_HOME_12V_MS
  | CARD1_TAP_PAUSE => CARD1_TAP_PAUSE_12V_MS
  | CARD1_TO_HOME => CARD1_TO_HOME_12V_MS
  | CARD2_FROM_HOME => CARD2_FROM_HOME_12V_MS
  | CARD2_TAP_PAUSE => CARD2_TAP_PAUSE_12V_MS
  | CARD2_TO_HOME => CARD2_TO_HOME_12V_MS
  | HOME_FROM_EXTENDED => HOME_FROM_EXTENDED_12V_MS
  | HOME_FROM_RETRACTED => HOME_FROM_RETRACTED_12V_MS
  | EXTEND_FULL => EXTEND_FULL_12V_MS
  | RETRACT_FULL => RETRACT_FULL_12V_MS
  end.

Definition profileUSB (d : Duration) : Z :=
  match d with
  | CARD1_FROM_HOME => CARD1_FROM_HOME_USB_MS
  | CARD1_TAP_PAUSE => CARD1_TAP_PAUSE_USB_MS
  | CARD1_TO_HOME => CARD1_TO_HOME_USB_MS
  | CARD2_FROM_HOME => CARD2_FROM_HOME_USB_MS
  | CARD2_TAP_PAUSE => CARD2_TAP_PAUSE_USB_MS
  | CARD2_TO_HOME => CARD2_TO_HOME_USB_MS
  | HOME_FROM_EXTENDED => HOME_FROM_EXTENDED_USB_MS
  | HOME_FROM_RETRACTED => HOME_FROM_RETRACTED_USB_MS
  | EXTEND_FULL => EXTEND_FULL_USB_MS
  | RETRACT_FULL => RETRACT_FULL_USB_MS
  end.

(** The lookup every helper performs: the row is chosen by [is12VPower]. *)
Definition lookup (d : Duration) (s : MotorController) : Z :=
  match d with
  | CARD1_FROM_HOME => getCard1FromHomeMs s
  | CARD1_TAP_PAUSE => getCard1TapPauseMs s
  | CARD1_TO_HOME => getCard1ToHomeMs s
  | CARD2_FROM_HOME => getCard2FromHomeMs s
  | CARD2_TAP_PAUSE => getCard2TapPauseMs s
  | CARD2_TO_HOME => getCard2ToHomeMs s
  | HOME_FROM_EXTENDED => getHomeFromExtendedMs s
  | HOME_FROM_RETRACTED => getHomeFromRetractedMs s
  | EXTEND_FULL => getExtendFullMs s
  | RETRACT_FULL => getRetractFullMs s
  end.

Definition isTapPause (d : Duration) : bool :=
  match d with
  | CARD1_TAP_PAUSE | CARD2_TAP_PAUSE => true
  | _ => false
  end.

(** 2.3 times a duration, rounded to the nearest millisecond. *)
Definition scaleToUSB (ms : Z) : Z := (23 * ms + 5) / 10.

(** ** Drift constants of the second firmware variant

    tapper_system/firmware/ESP_Tapper_Driver/motor_controller.h, lines
    117-118, declares a per-tap drift and its cap (beside two accumulator
    fields).  No method of the controller embedded here reads them. *)
Definition DRIFT_PER_TAP_MS : Z := 5.
Definition MAX_DRIFT_COMPENSATION : Z := 50.

(** One complete tap of card 1 on the 12V profile, polled exactly at the
    end of each phase. *)
Definition oneCard1Tap (s : MotorController) : MotorController :=
  polls [CARD1_FROM_HOME_12V_MS; CARD1_TAP_PAUSE_12V_MS; CARD1_TO_HOME_12V_MS]
        (exec tapCard1 s).

(** ** The phases of the sequencer, read off updateDualCardOperations *)

(** Time since the phase timer was last restarted, as the code computes it. *)
Definition elapsed (s : MotorController) : Z :=
  usub (clock s) (dualCardOperationStartTime s).

(** The duration the current phase is compared against. *)
Definition phaseTimeout (s : MotorController) : Z :=
  match currentOperation s with
  | MOVING_TO_MIDDLE =>
      match previousPosition s with
      | CARD1 => getCard1ToHomeMs s
      | CARD2 => getCard2ToHomeMs s
      | UNKNOWN => getRetractFullMs s
      | MIDDLE => getHomeFromRetractedMs s
      end
  | MOVING_TO_CARD1 => getCard1FromHomeMs s
  | MOVING_TO_CARD2 => getCard2FromHomeMs s
  | TAPPING_CARD1 => getCard1TapPauseMs s
  | TAPPING_CARD2 => getCard2TapPauseMs s
  | IDLE | MANUAL_OPERATION => 0
  end.

(** A phase that ends by itself when its duration has passed. *)
Definition timedPhase (s : MotorController) : bool :=
  match currentOperation s with
  | IDLE | MANUAL_OPERATION => false
  | _ => true
  end.

(** Where a phase leads when it ends. *)
Definition nextOperation (s : MotorController) : Operation :=
  match currentOperation s with
  | MOVING_TO_CARD1 => TAPPING_CARD1
  | MOVING_TO_CARD2 => TAPPING_CARD2
  | TAPPING_CARD1 | TAPPING_CARD2 => MOVING_TO_MIDDLE
  | MOVING_TO_MIDDLE =>
      match previousPosition s with
      | UNKNOWN => MOVING_TO_MIDDLE
      | _ => IDLE
      end
  | IDLE => IDLE
  | MANUAL_OPERATION => MANUAL_OPERATION
  end.

Definition nextPosition (s : MotorController) : Position :=
  match currentOperation s with
  | MOVING_TO_CARD1 => CARD1
  | MOVING_TO_CARD2 => CARD2
  | MOVING_TO_MIDDLE =>
      match previousPosition s with
      | UNKNOWN => currentPosition s
      | _ => MIDDLE
      end
  | _ => currentPosition s
  end.

Definition nextPrevious (s : MotorController) : Position :=
  match currentOperation s with
  | TAPPING_CARD1 => CARD1
  | TAPPING_CARD2 => CARD2
  | MOVING_TO_MIDDLE =>
      match previousPosition s with
      | UNKNOWN => CARD2
      | p => p
      end
  | _ => previousPosition s
  end.

Definition nextDrive (s : MotorController) : State :=
  match currentOperation s with
  | TAPPING_CARD1 => STATE_RETRACTING
  | TAPPING_CARD2 => STATE_EXTENDING
  | MOVING_TO_MIDDLE =>
      match previousPosition s with
      | UNKNOWN => STATE_EXTENDING
      | _ => STATE_IDLE
      end
  | _ => STATE_IDLE
  end.

(** Phases still to run after the current one, and the time they take. *)
Definition laterPhases (s : MotorController) : Z :=
  match currentOperation s with
  | MOVING_TO_CARD1 | MOVING_TO_CARD2 => 2
  | TAPPING_CARD1 | TAPPING_CARD2 => 1
  | MOVING_TO_MIDDLE =>
      match previousPosition s with
      | UNKNOWN => 1
      | _ => 0
      end
  | IDLE | MANUAL_OPERATION => 0
  end.

Definition laterTime (s : MotorController) : Z :=
  match currentOperation s with
  | MOVING_TO_CARD1 => getCard1TapPauseMs s + getCard1ToHomeMs s
  | MOVING_TO_CARD2 => getCard2TapPauseMs s + getCard2ToHomeMs s
  | TAPPING_CARD1 => getCard1ToHomeMs s
  | TAPPING_CARD2 => getCard2ToHomeMs s
  | MOVING_TO_MIDDLE =>
      match previousPosition s with
      | UNKNOWN => getCard2ToHomeMs s
      | _ => 0
      end
  | IDLE | MANUAL_OPERATION => 0
  end.

(** Upper bound on the time until Idle when no poll gap exceeds [gap]:
    what is left of the current phase, the later phases, and one gap of
    overshoot for each phase. *)
Definition timeToIdle (gap : Z) (s : MotorController) : Z :=
  if timedPhase s
  then (phaseTimeout s - elapsed s) + laterTime s + gap * (1 + laterPhases s)
  else 0.

(** The longest duration of either profile. *)
Definition LONGEST_PHASE_MS : Z := RETRACT_FULL_USB_MS.

Fixpoint total (ds : list Z) : Z :=
  match ds with
  | [] => 0
  | d :: ds' => d + total ds'
  end.

(** The operations of one tap, in order. *)
Definition tapCard1Sequence : list Operation :=
  [MOVING_TO_CARD1; TAPPING_CARD1; MOVING_TO_MIDDLE; IDLE].

Definition tapCard2Sequence : list Operation :=
  [MOVING_TO_CARD2; TAPPING_CARD2; MOVING_TO_MIDDLE; IDLE].

(** What is left of a tap of card 1 (resp. 2) in state [s]. *)
Definition restOfTap1 (s : MotorController) : list Operation :=
  match currentOperation s with
  | MOVING_TO_CARD1 => tapCard1Sequence
  | TAPPING_CARD1 => [TAPPING_CARD1; MOVING_TO_MIDDLE; IDLE]
  | MOVING_TO_MIDDLE => [MOVING_TO_MIDDLE; IDLE]
  | IDLE => [IDLE]
  | _ => []
  end.

Definition restOfTap2 (s : MotorController) : list Operation :=
  match currentOperation s with
  | MOVING_TO_CARD2 => tapCard2Sequence
  | TAPPING_CARD2 => [TAPPING_CARD2; MOVING_TO_MIDDLE; IDLE]
  | MOVING_TO_MIDDLE => [MOVING_TO_MIDDLE; IDLE]
  | IDLE => [IDLE]
  | _ => []
  end.

(** States met while a tap of card 1 (resp. 2) runs: on the way back the
    card is the remembered previous position, and Idle is at Middle. *)
Definition inTap1 (s : MotorController) : Prop :=
  match currentOperation s with
  | MOVING_TO_CARD1 | TAPPING_CARD1 => True
  | MOVING_TO_MIDDLE => previousPosition s = CARD1
  | IDLE => currentPosition s = MIDDLE
  | _ => False
  end.

Definition inTap2 (s : MotorController) : Prop :=
  match currentOperation s with
  | MOVING_TO_CARD2 | TAPPING_CARD2 => True
  | MOVING_TO_MIDDLE => previousPosition s = CARD2
  | IDLE => currentPosition s = MIDDLE
  | _ => False
  end.

(** Every phase that has not ended yet is still short of its duration. *)
Definition phasePending (s : MotorController) : Prop :=
  timedPhase s = true -> elapsed s < phaseTimeout s.

(** The state without what was printed on the serial port. *)
Definition withoutSerial (s : MotorController) : MotorController :=
  set_serialLog [] s.

(** On the way to Middle, or at rest there. *)
Definition resetting (s : MotorController) : Prop :=
  currentOperation s = MOVING_TO_MIDDLE
  \/ (currentOperation s = IDLE /\ currentPosition s = MIDDLE).

(** Upper bound on the time until the watchdog has stopped an uncontrolled
    drive when no poll gap exceeds [gap].  A poll that reads 0 from the
    clock leaves the timer unarmed (0 is also the "not armed" mark), which
    costs one more gap. *)
Definition watchdogBudget (gap : Z) (s : MotorController) : Z :=
  if isTapping s || negb (driving s) then 0
  else if moveStartTime s =? 0 then
    if clock s mod ULONG_RANGE =? 0
    then SAFETY_TIMEOUT_MS + 1 + gap
    else SAFETY_TIMEOUT_MS + 1 + 2 * gap
  else if usub (clock s) (moveStartTime s) >? SAFETY_TIMEOUT_MS
  then SAFETY_TIMEOUT_MS + 1 + gap
  else SAFETY_TIMEOUT_MS + 1 - usub (clock s) (moveStartTime s).

(** ** The command router (command_router.cpp) *)

Definition handleCommand (command : string) : Method unit :=
  Serial_println ("[Router] Handling command: " ++ command) ;;
  (* basic motor commands *)
  if (command =? "extend")%string then extend
  else if (command =? "retract")%string then retract
  else if (command =? "stop")%string then stop
  else if (command =? "tap")%string then startTap
  (* dual card commands *)
  else if (command =? "reset_to_middle")%string then resetToMiddle
  else if (command =? "tap_card1")%string then tapCard1
  else if (command =? "tap_card2")%string then tapCard2
  (* calibration commands *)
  else if (command =? "manual_extend")%string then manualExtend
  else if (command =? "manual_retract")%string then manualRetract
  else if (command =? "manual_stop")%string then manualStop
  else if (command =? "capture_middle")%string then captureCurrentAsMiddle
  (* power source commands *)
  else if (command =? "power_12v")%string then setPowerSource12V
  else if (command =? "power_usb")%string then setPowerSourceUSB
  else Serial_println ("[Router] Unknown command: " ++ command).

Definition knownCommands : list string :=
  ["extend"; "retract"; "stop"; "tap"; "reset_to_middle"; "tap_card1"; "tap_card2";
   "manual_extend"; "manual_retract"; "manual_stop"; "capture_middle"; "power_12v";
   "power_usb"].

(** ** Everything the host can do to the controller

    The host sketch is not part of the sources; it may call the update
    entry points in any order, hand over any command string, and start a
    timed operation of any duration (the JSON actions extend_for_time and
    retract_for_time), with any time passing in between. *)
Inductive Call :=
  | Command (command : string)
  | ExtendForTime (duration_ms : Z)
  | RetractForTime (duration_ms : Z)
  | UpdateTimedOperations
  | UpdateTap
  | UpdateDualCardOperations
  | CheckLimitSwitches
  | Init.

Definition call (c : Call) : Method unit :=
  match c with
  | Command command => handleCommand command
  | ExtendForTime duration_ms => extendForTime duration_ms
  | RetractForTime duration_ms => retractForTime duration_ms
  | UpdateTimedOperations => updateTimedOperations
  | UpdateTap => updateTap
  | UpdateDualCardOperations => updateDualCardOperations
  | CheckLimitSwitches => checkLimitSwitches
  | Init => init
  end.

(** A history: each call is made after the given number of milliseconds. *)
Fixpoint history (steps : list (Z * Call)) (s : MotorController) : MotorController :=
  match steps with
  | [] => s
  | (d, c) :: rest => history rest (exec (call c) (advance d s))
  end.

(** The update entry points only. *)
Definition isUpdate (c : Call) : bool :=
  match c with
  | UpdateTimedOperations | UpdateTap | UpdateDualCardOperations | CheckLimitSwitches => true
  | _ => false
  end.

(** The two outputs as the drive state demands them: never both high. *)
Definition pinsFollowState (s : MotorController) : Prop :=
  (pinIN1 s, pinIN2 s) =
  match currentState s with
  | STATE_IDLE => (LOW, LOW)
  | STATE_EXTENDING => (HIGH, LOW)
  | STATE_RETRACTING => (LOW, HIGH)
  end.

(** ** Runs of the legacy tap *)

Definition tapPoll (d : Z) (s : MotorController) : MotorController :=
  exec updateTap (advance d s).

Fixpoint tapPolls (ds : list Z) (s : MotorController) : MotorController :=
  match ds with
  | [] => s
  | d :: ds' => tapPolls ds' (tapPoll d s)
  end.

(** Upper bound on the time until the legacy tap is idle again when no
    poll gap exceeds [gap].  Its comparisons are strict, so each timed
    state lasts one millisecond longer than its setting; TAP_COMPLETE
    takes one more poll. *)
Definition tapBudget (gap : Z) (s : MotorController) : Z :=
  let left := fun setting => setting + 1 - usub (clock s) (tapStartTime s) in
  match tapState s with
  | TAP_IDLE => 0
  | TAP_EXTENDING => left (tapTimeout s) + (tapPauseDelay s + 1) + (tapTimeout s + 1) + 4 * gap
  | TAP_PAUSE => left (tapPauseDelay s) + (tapTimeout s + 1) + 3 * gap
  | TAP_RETRACTING => left (tapTimeout s) + 2 * gap
  | TAP_COMPLETE => gap
  end.

(** Time that must still pass before the sequencer can be Idle: what is
    left of the current phase and the later phases. *)
Definition timeLeft (s : MotorController) : Z :=
  if timedPhase s then (phaseTimeout s - elapsed s) + laterTime s else 0.

(** The current timed state of the legacy tap has not outlasted its
    setting at the last clock reading. *)
Definition tapPending (s : MotorController) : Prop :=
  match tapState s with
  | TAP_EXTENDING | TAP_RETRACTING => usub (clock s) (tapStartTime s) <= tapTimeout s
  | TAP_PAUSE => usub (clock s) (tapStartTime s) <= tapPauseDelay s
  | TAP_IDLE | TAP_COMPLETE => True
  end.

(** Once the legacy tap has retracted, the drive is stopped. *)
Definition tapSettled (s : MotorController) : Prop :=
  match tapState s with
  | TAP_IDLE | TAP_COMPLETE => currentState s = STATE_IDLE
  | _ => True
  end.

(** ** The detailed status line

    The text MQTTHandler::publishDetailedStatus (mqtt_handler.cpp) publishes
    and the /status endpoint (http_server.cpp) returns. *)
Definition detailedStatus (s : MotorController) : string :=
  let detailed := "Position: " ++ getPositionString s
                  ++ ", Operation: " ++ getOperationString s
                  ++ ", Power: " ++ getPowerSourceString s in
  (* add timing info if measurement is active *)
  let timingInfo := getTimingInfo s in
  if negb (timingInfo =? "No timing measurement active")%string
  then detailed ++ ", " ++ timingInfo
  else detailed.

(** ** JSON commands (command_router.cpp, handleJsonCommand)

    Parsing is ArduinoJson's; the router only sees its outcome: the error
    text when deserializeJson fails, the value of "action" when the key is
    there, and the value of "duration_ms" read as an unsigned long when
    that key is there. *)
Record JsonDocument := {
  deserializationError : option string;
  docAction : option string;
  docDuration : option Z
}.

Definition handleJsonCommand (doc : JsonDocument) : Method unit :=
  match deserializationError doc with
  | Some err => Serial_println ("[Router] Invalid JSON received: " ++ err)
  | None =>
      match docAction doc with
      | None => Serial_println "[Router] No 'action' in JSON"
      | Some action =>
          Serial_println ("[Router] JSON Action: " ++ action) ;;
          (* time-based commands (relay mimicking) *)
          if (action =? "extend_for_time")%string then
            match docDuration doc with
            | Some duration => extendForTime duration
            | None => Serial_println "[Router] Missing duration_ms for extend_for_time"
            end
          else if (action =? "retract_for_time")%string then
            match docDuration doc with
            | Some duration => retractForTime duration
            | None => Serial_println "[Router] Missing duration_ms for retract_for_time"
            end
          (* legacy tap command *)
          else if (action =? "tap")%string then tap
          (* basic commands *)
          else handleCommand action
      end
  end.

(** ** The device identifier (wifi_config.cpp, connect) *)

(** [mac.substring(mac.length() - 6)]: the part from that index to the
    end.  The index is unsigned, so for a string shorter than 6 it wraps
    to a value beyond the end and the result is empty. *)
Definition lastSixChars (mac : string) : string :=
  let len := String.length mac in
  if (len <? 6)%nat then "" else String.substring (len - 6) 6 mac.

(** [suffix.replace(":", "")]: every colon removed. *)
Fixpoint withoutColons (text : string) : string :=
  match text with
  | EmptyString => EmptyString
  | String c rest =>
      if Ascii.eqb c ":"%char then withoutColons rest else String c (withoutColons rest)
  end.

(** The identifier assigned once WiFi is connected, from the MAC address,
    and the one assigned when the connection failed. *)
Definition deviceIdFromMac (mac : string) : string :=
  "tapper_" ++ withoutColons (lastSixChars mac).

Definition deviceIdWhenNotConnected : string := "tapper_unknown".

(** A MAC address as WiFi.macAddress() prints it: six groups of two
    characters separated by colons. *)
Definition macAddress (a1 a2 b1 b2 c1 c2 d1 d2 e1 e2 f1 f2 : Ascii.ascii) : string :=
  (String a1 (String a2 (String ":" (String b1 (String b2 (String ":" (String c1
  (String c2 (String ":" (String d1 (String d2 (String ":" (String e1 (String e2
  (String ":" (String f1 (String f2 ""))))))))))))))))).

(** The outputs between the two digitalWrite calls of a drive primitive:
    extend() writes IN1 first (HIGH), retract() and stop() write IN1 first
    (LOW). *)
Definition betweenWritesOfExtend (s : MotorController) : MotorController :=
  exec (digitalWrite IN1_PIN HIGH) s.

Definition betweenWritesOfRetract (s : MotorController) : MotorController :=
  exec (digitalWrite IN1_PIN LOW) s.

Definition betweenWritesOfStop (s : MotorController) : MotorController :=
  exec (digitalWrite IN1_PIN LOW) s.

(** * Verification *)

(** ** Proof tools *)

(** Open the record, so that field reads of an updated state compute. *)
Ltac fields s :=
  destruct s as [clk in1 in2 slog mlog cst tst tstart ttimeout tpause timed ostart odur
                 okind pos prev op dstart mstart mactive power armed];
  cbn [clock pinIN1 pinIN2 serialLog mqttLog currentState tapState tapStartTime
       tapTimeout tapPauseDelay timedOperation operationStartTime operationDuration
       timedOperationState currentPosition previousPosition currentOperation
       dualCardOperationStartTime manualTimingStart timingMeasurementActive
       is12VPower moveStartTime set_clock] in *.

(** The same for a second state in the same goal. *)
Ltac fields' s :=
  destruct s as [clk' in1' in2' slog' mlog' cst' tst' tstart' ttimeout' tpause' timed'
                 ostart' odur' okind' pos' prev' op' dstart' mstart' mactive' power'
                 armed'];
  cbn [clock pinIN1 pinIN2 serialLog mqttLog currentState tapState tapStartTime
       tapTimeout tapPauseDelay timedOperation operationStartTime operationDuration
       timedOperationState currentPosition previousPosition currentOperation
       dualCardOperationStartTime manualTimingStart timingMeasurementActive
       is12VPower moveStartTime set_clock] in *.

(** Compute everything but integer arithmetic, in the goal and the context. *)
Ltac arith :=
  lazy -[usub Z.add Z.sub Z.mul Z.modulo Z.div Z.lt Z.le Z.gt Z.ge Z.max Z.min Z.geb Z.gtb
         Z.eqb Z.pow ULONG_RANGE not] in *.

(** Run a method on an opened state, leaving clock arithmetic alone. *)
Ltac run :=
  unfold poll, timedPoll, watchdogPoll, advance, rejected, exec, value, execState, evalState;
  lazy -[usub String_of Z.geb Z.gtb Z.eqb Z.add Z.sub Z.modulo Z.ltb Z.leb Z.mul Z.div
         Z.lt Z.le Z.gt Z.ge Z.min Z.max Z.pow ULONG_RANGE not append List.app].

Lemma usub_range a b : 0 <= usub a b < ULONG_RANGE.
Proof. unfold usub, ULONG_RANGE. apply Z.mod_pos_bound. reflexivity. Qed.

Lemma usub_self a : usub a a = 0.
Proof. unfold usub. rewrite Z.sub_diag. reflexivity. Qed.

(** Elapsed time as seen through the wrapping subtraction grows by the gap. *)
Lemma usub_advance c d start :
  usub ((c + d) mod ULONG_RANGE) start = (usub c start + d) mod ULONG_RANGE.
Proof.
  unfold usub, ULONG_RANGE.
  rewrite Zminus_mod_idemp_l, Zplus_mod_idemp_l. f_equal. lia.
Qed.

(** ** Smoke tests of the embedding on concrete runs *)

Example init_state :
  let s := exec init (constructed 17) in
  (currentPosition s, currentOperation s, currentState s, pinIN1 s, pinIN2 s, mqttLog s)
  = (UNKNOWN, IDLE, STATE_IDLE, false, false, [publishStatus "idle"]).
Proof. reflexivity. Qed.

Example tapCard1_from_unknown_redirects :
  let s := exec tapCard1 (exec init (constructed 17)) in
  (currentOperation s, previousPosition s, currentState s, dualCardOperationStartTime s)
  = (MOVING_TO_MIDDLE, UNKNOWN, STATE_RETRACTING, 17).
Proof. reflexivity. Qed.

Example tapCard1_full_cycle_12V :
  let s0 := exec captureCurrentAsMiddle (exec init (constructed 0)) in
  let s := polls [1100; 1000; 1100] (exec tapCard1 s0) in
  operations [1100; 1000; 1100] (exec tapCard1 s0) = [TAPPING_CARD1; MOVING_TO_MIDDLE; IDLE]
  /\ currentPosition s = MIDDLE /\ currentState s = STATE_IDLE /\ clock s = 3200.
Proof. repeat split; vm_compute; reflexivity. Qed.

(** ** Re-entrant calls (tapCard1, tapCard2, resetToMiddle) *)

(** C4: in every state with Operation <> Idle, tapCard1(), tapCard2() and
    resetToMiddle() change nothing but the serial log, which gains one
    diagnostic line; in particular Position, Operation, the drive state,
    both output pins and the published statuses are as before.  The
    methods return no value. *)
Theorem busy_calls_are_rejected (s : MotorController) :
  currentOperation s <> IDLE ->
  exec tapCard1 s = rejected "[DualCard] Cannot tap Card 1 - operation in progress" s
  /\ exec tapCard2 s = rejected "[DualCard] Cannot tap Card 2 - operation in progress" s
  /\ exec resetToMiddle s = rejected "[DualCard] Cannot reset - operation in progress" s
  /\ forall m : Method unit, In m [tapCard1; tapCard2; resetToMiddle] ->
       currentPosition (exec m s) = currentPosition s
       /\ currentOperation (exec m s) = currentOperation s
       /\ currentState (exec m s) = currentState s
       /\ pinIN1 (exec m s) = pinIN1 s
       /\ pinIN2 (exec m s) = pinIN2 s
       /\ mqttLog (exec m s) = mqttLog s.
Proof.
  intros busy. fields s.
  destruct op; try congruence.
  all: do 3 (split; [reflexivity |]).
  all: intros m Hm; cbn [In] in Hm; destruct Hm as [Hm | [Hm | [Hm | []]]];
    subst m; repeat split.
Qed.

Lemma busy_calls_are_rejected_witness :
  let s := exec tapCard1 (exec captureCurrentAsMiddle (exec init (constructed 0))) in
  currentOperation s = MOVING_TO_CARD1
  /\ currentOperation (exec tapCard2 s) = MOVING_TO_CARD1
  /\ currentState (exec resetToMiddle s) = STATE_EXTENDING.
Proof.
  set (s := exec tapCard1 (exec captureCurrentAsMiddle (exec init (constructed 0)))).
  assert (busy : currentOperation s <> IDLE) by (vm_compute; discriminate).
  destruct (busy_calls_are_rejected s busy) as (_ & e2 & e3 & _).
  cbv zeta. rewrite e2, e3. vm_compute. repeat split.
Defined.

(** ** The combined state label *)

(** C9: getState() picks its label by strict priority: the dual-card
    Operation when one is active; else the timed operation when one is
    outstanding; else the legacy tap state when it is not idle; else the
    basic drive state. *)
Theorem getState_priority (s : MotorController) :
  (currentOperation s <> IDLE -> getState s = getOperationString s)
  /\ (currentOperation s = IDLE -> timedOperation s = true ->
      getState s = timedOperationLabel (timedOperationState s))
  /\ (currentOperation s = IDLE -> timedOperation s = false -> tapState s <> TAP_IDLE ->
      getState s = tapStateLabel (tapState s))
  /\ (currentOperation s = IDLE -> timedOperation s = false -> tapState s = TAP_IDLE ->
      getState s = driveStateLabel (currentState s)).
Proof.
  fields s. unfold getState, getOperationString. cbn.
  repeat split; intros; subst; cbn.
  - destruct op; try congruence; reflexivity.
  - reflexivity.
  - destruct tst; try congruence; reflexivity.
  - reflexivity.
Qed.

Lemma getState_priority_witness :
  let booted := exec init (constructed 0) in
  getState (exec tapCard1 (exec captureCurrentAsMiddle booted)) = "moving_to_card1"
  /\ getState (exec (extendForTime 500) booted) = "timed_extending"
  /\ getState (exec startTap booted) = "tap_extending"
  /\ getState (exec retract booted) = "retracting".
Proof.
  cbv zeta. split; [| split; [| split]].
  - destruct (getState_priority
                (exec tapCard1 (exec captureCurrentAsMiddle (exec init (constructed 0)))))
      as (h & _).
    rewrite h by (vm_compute; discriminate). reflexivity.
  - destruct (getState_priority (exec (extendForTime 500) (exec init (constructed 0))))
      as (_ & h & _).
    rewrite h by reflexivity. reflexivity.
  - destruct (getState_priority (exec startTap (exec init (constructed 0))))
      as (_ & _ & h & _).
    rewrite h by (vm_compute; (reflexivity || discriminate)). reflexivity.
  - destruct (getState_priority (exec retract (exec init (constructed 0))))
      as (_ & _ & _ & h).
    rewrite h by reflexivity. reflexivity.
Defined.

(** ** captureCurrentAsMiddle *)

(** C8, as the code has it: from every state captureCurrentAsMiddle()
    leaves Position = Middle and Operation = Idle.  Only a dual-card
    Operation counts as in-flight work: when one is active it is
    force-completed first, with the actuator stopped; when Operation is
    Idle the drive state and both pins stay as they were.  The
    timed-operation flag and the legacy tap state are never touched. *)
Theorem capture_sets_middle_and_idle (s : MotorController) :
  let s' := exec captureCurrentAsMiddle s in
  currentPosition s' = MIDDLE
  /\ currentOperation s' = IDLE
  /\ (currentOperation s <> IDLE ->
      currentState s' = STATE_IDLE /\ pinIN1 s' = LOW /\ pinIN2 s' = LOW)
  /\ (currentOperation s = IDLE ->
      currentState s' = currentState s /\ pinIN1 s' = pinIN1 s /\ pinIN2 s' = pinIN2 s)
  /\ timedOperation s' = timedOperation s
  /\ operationStartTime s' = operationStartTime s
  /\ operationDuration s' = operationDuration s
  /\ tapState s' = tapState s.
Proof.
  fields s. destruct op; cbv zeta; repeat split; intros; congruence.
Qed.

Lemma capture_sets_middle_and_idle_witness :
  let s := exec tapCard1 (exec captureCurrentAsMiddle (exec init (constructed 0))) in
  let s' := exec captureCurrentAsMiddle s in
  currentState s = STATE_EXTENDING /\ currentState s' = STATE_IDLE /\ pinIN1 s' = LOW.
Proof.
  destruct (capture_sets_middle_and_idle
              (exec tapCard1 (exec captureCurrentAsMiddle (exec init (constructed 0)))))
    as (_ & _ & active & _).
  destruct (active ltac:(vm_compute; discriminate)) as (stopped & low & _).
  cbv zeta. split; [reflexivity | split; [exact stopped | exact low]].
Defined.

(** C8 (counterexample): a timed extend is outstanding and Operation is
    Idle; after captureCurrentAsMiddle() the drive is still extending, pin
    IN1 is still high and the timed operation is still outstanding. *)
Lemma capture_leaves_timed_operation_running :
  let s := exec (extendForTime 1000) (exec init (constructed 0)) in
  let s' := exec captureCurrentAsMiddle s in
  currentOperation s = IDLE /\ timedOperation s = true
  /\ currentPosition s' = MIDDLE /\ currentOperation s' = IDLE
  /\ currentState s' = STATE_EXTENDING /\ pinIN1 s' = HIGH /\ timedOperation s' = true.
Proof. vm_compute. repeat split. Qed.

(** ** manualStop during a timed operation *)

Lemma timedPoll_before_expiry (d : Z) (s : MotorController) :
  timedOperation s = true ->
  usub (clock (advance d s)) (operationStartTime s) < operationDuration s ->
  timedPoll d s = advance d s.
Proof.
  intros pending early. fields s. subst.
  unfold advance in early. cbn [clock set_clock] in early. run.
  destruct (Z.geb_spec (usub ((clk + d) mod ULONG_RANGE) ostart) odur); [lia | reflexivity].
Qed.

Lemma timedPolls_before_expiry (ds : list Z) (s : MotorController) :
  timedOperation s = true ->
  Forall (fun c => usub c (operationStartTime s) < operationDuration s)
         (readings (clock s) ds) ->
  let s' := timedPolls ds s in
  timedOperation s' = true
  /\ operationStartTime s' = operationStartTime s
  /\ operationDuration s' = operationDuration s
  /\ timedOperationState s' = timedOperationState s
  /\ currentState s' = currentState s
  /\ currentOperation s' = currentOperation s
  /\ mqttLog s' = mqttLog s.
Proof.
  revert s. induction ds as [| d ds IH]; intros s pending early;
    cbn [timedPolls readings] in *; cbv zeta.
  - repeat split; assumption.
  - inversion early as [| ? ? now later]; subst.
    assert (step : timedPoll d s = advance d s).
    { apply timedPoll_before_expiry; [assumption |]. fields s. exact now. }
    rewrite step.
    specialize (IH (advance d s)).
    fields s. apply IH; assumption.
Qed.

Lemma timedPoll_at_expiry (d : Z) (s : MotorController) :
  timedOperation s = true ->
  operationDuration s <= usub (clock (advance d s)) (operationStartTime s) ->
  let s' := timedPoll d s in
  timedOperation s' = false
  /\ currentState s' = STATE_IDLE /\ pinIN1 s' = LOW /\ pinIN2 s' = LOW
  /\ mqttLog s' = (mqttLog s ++ [publishStatus "idle";
                                 publishStatus (completionStatus (timedOperationState s))])%list.
Proof.
  intros pending due. fields s. subst.
  unfold advance in due. cbn [clock set_clock] in due. run.
  destruct (Z.geb_spec (usub ((clk + d) mod ULONG_RANGE) ostart) odur); [| lia].
  destruct okind; run; rewrite <- app_assoc; repeat split.
Qed.

Lemma manualStop_when_idle (s : MotorController) :
  currentOperation s = IDLE ->
  let s' := exec manualStop s in
  clock s' = clock s
  /\ currentState s' = STATE_IDLE /\ pinIN1 s' = LOW /\ pinIN2 s' = LOW
  /\ currentOperation s' = IDLE
  /\ currentPosition s' = currentPosition s
  /\ timedOperation s' = timedOperation s
  /\ operationStartTime s' = operationStartTime s
  /\ operationDuration s' = operationDuration s
  /\ timedOperationState s' = timedOperationState s
  /\ timingMeasurementActive s' = false
  /\ mqttLog s' = (mqttLog s ++ [publishStatus "idle"])%list.
Proof.
  intros idle. fields s. subst. destruct mactive; repeat split.
Qed.

(** C10: with Operation = Idle and a timed operation outstanding,
    manualStop() stops the drive but leaves the timed-operation flag set.
    Polls of updateTimedOperations() before the original expiry change
    nothing, and the first poll at or after it publishes "idle" followed by
    the completion status of the operation that was stopped:
    "extend_complete" for extendForTime(), "retract_complete" for
    retractForTime(). *)
Theorem manualStop_keeps_timed_operation (s : MotorController) (ds : list Z) (d : Z) :
  currentOperation s = IDLE ->
  timedOperation s = true ->
  timedOperationState s <> STATE_IDLE ->
  let stopped := exec manualStop s in
  let waiting := timedPolls ds stopped in
  let expired := timedPoll d waiting in
  Forall (fun c => usub c (operationStartTime s) < operationDuration s)
         (readings (clock s) ds) ->
  operationDuration s <= usub (clock (advance d waiting)) (operationStartTime s) ->
  (currentState stopped = STATE_IDLE /\ pinIN1 stopped = LOW /\ pinIN2 stopped = LOW)
  /\ timedOperation stopped = true
  /\ mqttLog stopped = (mqttLog s ++ [publishStatus "idle"])%list
  /\ timedOperation waiting = true
  /\ mqttLog waiting = mqttLog stopped
  /\ timedOperation expired = false
  /\ mqttLog expired =
       (mqttLog stopped
        ++ [publishStatus "idle";
            publishStatus (if State_eqb (timedOperationState s) STATE_EXTENDING
                           then "extend_complete" else "retract_complete")])%list.
Proof.
  intros idle pending kind stopped waiting expired early due.
  destruct (manualStop_when_idle s idle)
    as (hclk & hcs & hp1 & hp2 & _ & _ & hflag & hstart & hdur & hkind & _ & hlog).
  fold stopped in hclk, hcs, hp1, hp2, hflag, hstart, hdur, hkind, hlog.
  assert (pending' : timedOperation stopped = true) by congruence.
  destruct (timedPolls_before_expiry ds stopped pending')
    as (wflag & wstart & wdur & wkind & _ & _ & wlog).
  { rewrite hstart, hdur, hclk. exact early. }
  fold waiting in wflag, wstart, wdur, wkind, wlog.
  destruct (timedPoll_at_expiry d waiting wflag) as (eflag & _ & _ & _ & elog).
  { rewrite wstart, wdur, hstart, hdur. exact due. }
  fold expired in eflag, elog.
  repeat split; try assumption.
  rewrite elog, wlog, wkind, hkind.
  destruct (timedOperationState s); [congruence | reflexivity | reflexivity].
Qed.

Lemma manualStop_keeps_timed_operation_witness :
  let s := exec (extendForTime 1000) (exec init (constructed 0)) in
  let stopped := exec manualStop (advance 300 s) in
  timedOperation stopped = true
  /\ mqttLog (timedPoll 400 (timedPolls [100; 200] stopped))
     = (mqttLog stopped ++ [publishStatus "idle"; publishStatus "extend_complete"])%list.
Proof.
  pose proof (manualStop_keeps_timed_operation
                (advance 300 (exec (extendForTime 1000) (exec init (constructed 0))))
                [100; 200] 400) as H.
  cbv zeta in H.
  destruct H as (_ & flag & _ & _ & _ & _ & log).
  - reflexivity.
  - reflexivity.
  - vm_compute. discriminate.
  - repeat (first [apply Forall_nil | apply Forall_cons; [vm_compute; reflexivity |]]).
  - vm_compute. discriminate.
  - cbv zeta. split; [exact flag | exact log].
Defined.

(** ** The timing profiles *)

Lemma lookup_reads_profile (d : Duration) (s : MotorController) :
  lookup d s = if is12VPower s then profile12V d else profileUSB d.
Proof. destruct d; reflexivity. Qed.

(** C3, as the code has it: each travel duration of the USB profile is 2.3
    times the 12V duration rounded to the nearest millisecond, the two
    tap-pause durations are the same in both profiles, and every lookup
    reads one of these two constant tables. *)
Theorem usb_profile_scaling (d : Duration) :
  profileUSB d = (if isTapPause d then profile12V d else scaleToUSB (profile12V d))
  /\ forall s : MotorController,
       lookup d s = if is12VPower s then profile12V d else profileUSB d.
Proof.
  split; [destruct d; reflexivity | apply lookup_reads_profile].
Qed.

(** C3 (counterexample): no single multiplier p/q maps the 12V profile to
    the USB profile, not even up to an error of one millisecond per entry:
    the tap pauses force a factor of about 1, the approach durations one of
    about 2.3. *)
Lemma usb_profile_has_no_single_multiplier :
  ~ exists p q : Z,
      0 < q /\ forall d : Duration, Z.abs (profileUSB d * q - profile12V d * p) < q.
Proof.
  intros (p & q & qpos & close).
  pose proof (close CARD1_TAP_PAUSE) as pause.
  pose proof (close CARD1_FROM_HOME) as approach.
  cbv [profileUSB profile12V CARD1_TAP_PAUSE_USB_MS CARD1_TAP_PAUSE_12V_MS
       CARD1_FROM_HOME_USB_MS CARD1_FROM_HOME_12V_MS] in pause, approach.
  lia.
Qed.


(** ** One poll of updateDualCardOperations *)

(** A poll either finds the phase duration not yet passed and changes
    nothing, or ends the phase as the table above says. *)
Lemma poll_spec (d : Z) (s : MotorController) :
  let a := advance d s in
  let s' := poll d s in
  if timedPhase s && (elapsed a >=? phaseTimeout s)
  then currentOperation s' = nextOperation s
       /\ currentPosition s' = nextPosition s
       /\ previousPosition s' = nextPrevious s
       /\ currentState s' = nextDrive s
       /\ (currentOperation s' <> IDLE -> dualCardOperationStartTime s' = clock a)
       /\ clock s' = clock a
       /\ is12VPower s' = is12VPower s
  else s' = a.
Proof.
  fields s. destruct op; [| destruct prev | | | | |]; destruct power; run;
    try reflexivity;
    match goal with
    | |- context [?x >=? ?y] => destruct (x >=? y)
    end; run; try reflexivity; repeat split; intros; congruence.
Qed.

Lemma poll_in_tap1 (d : Z) (s : MotorController) :
  inTap1 s ->
  inTap1 (poll d s)
  /\ (restOfTap1 (poll d s) = restOfTap1 s
      \/ currentOperation s :: restOfTap1 (poll d s) = restOfTap1 s)
  /\ restOfTap1 s = currentOperation s :: tl (restOfTap1 s).
Proof.
  intros inv. pose proof (poll_spec d s) as step. cbv zeta in step.
  destruct (timedPhase s && _).
  - destruct step as (o & p & q & _).
    unfold inTap1, restOfTap1, nextOperation, nextPosition, nextPrevious in *.
    rewrite o, ?p, ?q.
    destruct (currentOperation s); try contradiction; try rewrite inv; auto.
  - rewrite step. unfold inTap1, restOfTap1 in *. fields s.
    destruct op; try contradiction; auto.
Qed.

Lemma poll_in_tap2 (d : Z) (s : MotorController) :
  inTap2 s ->
  inTap2 (poll d s)
  /\ (restOfTap2 (poll d s) = restOfTap2 s
      \/ currentOperation s :: restOfTap2 (poll d s) = restOfTap2 s)
  /\ restOfTap2 s = currentOperation s :: tl (restOfTap2 s).
Proof.
  intros inv. pose proof (poll_spec d s) as step. cbv zeta in step.
  destruct (timedPhase s && _).
  - destruct step as (o & p & q & _).
    unfold inTap2, restOfTap2, nextOperation, nextPosition, nextPrevious in *.
    rewrite o, ?p, ?q.
    destruct (currentOperation s); try contradiction; try rewrite inv; auto.
  - rewrite step. unfold inTap2, restOfTap2 in *. fields s.
    destruct op; try contradiction; auto.
Qed.

(** ** Runs of polls during a tap *)

Lemma visited_cons (a b : Operation) (rest : list Operation) :
  visited (a :: b :: rest)
  = if Operation_eqb a b then visited (b :: rest) else a :: visited (b :: rest).
Proof. reflexivity. Qed.

Lemma restOfTap1_by_operation (s s' : MotorController) :
  currentOperation s' = currentOperation s -> restOfTap1 s' = restOfTap1 s.
Proof. unfold restOfTap1. intros ->. reflexivity. Qed.

Lemma restOfTap2_by_operation (s s' : MotorController) :
  currentOperation s' = currentOperation s -> restOfTap2 s' = restOfTap2 s.
Proof. unfold restOfTap2. intros ->. reflexivity. Qed.

Lemma Operation_eqb_eq (a b : Operation) : Operation_eqb a b = true <-> a = b.
Proof. destruct a, b; cbn; split; intros; congruence. Qed.

(** The induction shared by the two traces: [step] is the one-poll lemma
    of the tap, [by_op] says that what is left depends on the operation. *)
Ltac trace_by_induction ds step by_op :=
  let s := fresh "s" in
  let inv := fresh "inv" in
  let IH := fresh "IH" in
  let d := fresh "d" in
  intros s; revert s;
  induction ds as [| d ds IH]; intros s inv; cbn [polls operations];
  [ split; [assumption |];
    destruct (step 0 s inv) as (_ & _ & shape); cbn [visited app];
    symmetry; exact shape
  | destruct (step d s inv) as (inv' & move & shape);
    destruct (IH (poll d s) inv') as (final & trace);
    split; [assumption |];
    rewrite visited_cons;
    destruct (Operation_eqb (currentOperation s) (currentOperation (poll d s))) eqn:same;
    [ apply Operation_eqb_eq in same;
      rewrite trace; apply by_op; congruence
    | cbn [app]; rewrite trace;
      destruct move as [stay | moved]; [| exact moved];
      exfalso;
      destruct (step 0 (poll d s) inv') as (_ & _ & shape');
      rewrite stay, shape in shape';
      assert (same' : currentOperation s = currentOperation (poll d s)) by congruence;
      apply Operation_eqb_eq in same'; congruence ] ].

(** Whatever the clock does, the operations seen so far followed by what
    is left of the tap make up the tap sequence. *)
Lemma tap1_trace (ds : list Z) :
  forall s : MotorController,
  inTap1 s ->
  inTap1 (polls ds s)
  /\ (visited (currentOperation s :: operations ds s) ++ tl (restOfTap1 (polls ds s)))%list
     = restOfTap1 s.
Proof. trace_by_induction ds poll_in_tap1 restOfTap1_by_operation. Qed.

Lemma tap2_trace (ds : list Z) :
  forall s : MotorController,
  inTap2 s ->
  inTap2 (polls ds s)
  /\ (visited (currentOperation s :: operations ds s) ++ tl (restOfTap2 (polls ds s)))%list
     = restOfTap2 s.
Proof. trace_by_induction ds poll_in_tap2 restOfTap2_by_operation. Qed.

(** ** Progress of the phase timer under an advancing clock *)

Lemma phaseTimeout_bounds (s : MotorController) :
  timedPhase s = true -> 0 < phaseTimeout s <= LONGEST_PHASE_MS.
Proof.
  fields s. destruct op, prev, power; cbv; intros; split; congruence.
Qed.

Lemma poll_progress (gap d : Z) (s : MotorController) :
  0 < d <= gap -> gap + LONGEST_PHASE_MS < ULONG_RANGE ->
  phasePending s ->
  phasePending (poll d s)
  /\ timeToIdle gap (poll d s) <= Z.max 0 (timeToIdle gap s - d).
Proof.
  intros gapd room pending.
  pose proof (poll_spec d s) as step. cbv zeta in step.
  pose proof (usub_advance (clock s) d (dualCardOperationStartTime s)) as adv.
  pose proof (usub_range (clock s) (dualCardOperationStartTime s)) as range.
  pose proof (phaseTimeout_bounds s) as bounds.
  unfold phasePending in pending.
  generalize dependent (poll d s). intros s' step.
  unfold phasePending, timeToIdle, elapsed in *.
  unfold LONGEST_PHASE_MS, RETRACT_FULL_USB_MS, ULONG_RANGE in room, bounds.
  destruct (timedPhase s) eqn:tp; cbn [andb] in step.
  - specialize (pending eq_refl). specialize (bounds eq_refl).
    assert (adv' : usub (clock (advance d s)) (dualCardOperationStartTime (advance d s))
                   = usub (clock s) (dualCardOperationStartTime s) + d).
    { fields s. unfold advance. cbn [clock dualCardOperationStartTime set_clock].
      rewrite adv. apply Z.mod_small. unfold ULONG_RANGE. lia. }
    destruct (Z.geb_spec (usub (clock (advance d s)) (dualCardOperationStartTime (advance d s)))
                         (phaseTimeout s)) as [due | early].
    + destruct step as (o & p & q & cs & st & ck & pw).
      fields s. fields' s'. subst.
      destruct op, prev, power; try discriminate tp; arith;
        try (specialize (st ltac:(discriminate)); subst dstart');
        rewrite ?usub_self; (split; [intros tp' |]); try discriminate tp'; lia.
    + subst s'. fields s. unfold advance.
      destruct op, prev, power; try discriminate tp; arith;
        (split; [intros tp' |]); try discriminate tp'; lia.
  - subst s'. fields s. unfold advance.
    destruct op; try discriminate tp; arith; (split; [intros; discriminate | lia]).
Qed.

Lemma timeToIdle_positive (gap : Z) (s : MotorController) :
  0 < gap -> phasePending s -> timedPhase s = true -> 0 < timeToIdle gap s.
Proof.
  intros gappos pending tp. specialize (pending tp). unfold timeToIdle. rewrite tp.
  fields s. destruct op, prev, power; try discriminate tp; arith; lia.
Qed.

Lemma total_nonneg (gap : Z) (ds : list Z) :
  Forall (fun d => 0 < d <= gap) ds -> 0 <= total ds.
Proof. induction 1; cbn [total]; lia. Qed.

Lemma polls_reach_rest (gap : Z) (ds : list Z) :
  0 < gap -> gap + LONGEST_PHASE_MS < ULONG_RANGE ->
  Forall (fun d => 0 < d <= gap) ds ->
  forall s : MotorController,
  phasePending s ->
  timeToIdle gap s <= total ds ->
  timedPhase (polls ds s) = false.
Proof.
  intros gappos room gaps. induction gaps as [| d ds dgap gaps IH]; intros s pending enough;
    cbn [polls total] in *.
  - destruct (timedPhase s) eqn:tp; [| reflexivity].
    pose proof (timeToIdle_positive gap s gappos pending tp). lia.
  - destruct (poll_progress gap d s dgap room pending) as (pending' & less).
    apply IH; [assumption |].
    pose proof (total_nonneg gap ds gaps). lia.
Qed.

(** ** A tap started at Middle *)

Lemma tapCard1_from_middle (s : MotorController) :
  currentOperation s = IDLE -> currentPosition s = MIDDLE ->
  let t := exec tapCard1 s in
  currentOperation t = MOVING_TO_CARD1
  /\ currentPosition t = MIDDLE /\ previousPosition t = MIDDLE
  /\ currentState t = STATE_EXTENDING /\ pinIN1 t = HIGH /\ pinIN2 t = LOW
  /\ dualCardOperationStartTime t = clock s
  /\ clock t = clock s /\ is12VPower t = is12VPower s.
Proof. intros idle middle. fields s. subst. repeat split. Qed.

Lemma tapCard2_from_middle (s : MotorController) :
  currentOperation s = IDLE -> currentPosition s = MIDDLE ->
  let t := exec tapCard2 s in
  currentOperation t = MOVING_TO_CARD2
  /\ currentPosition t = MIDDLE /\ previousPosition t = MIDDLE
  /\ currentState t = STATE_RETRACTING /\ pinIN1 t = LOW /\ pinIN2 t = HIGH
  /\ dualCardOperationStartTime t = clock s
  /\ clock t = clock s /\ is12VPower t = is12VPower s.
Proof. intros idle middle. fields s. subst. repeat split. Qed.

Lemma tapCard1_budget (gap : Z) (s : MotorController) :
  currentOperation s = IDLE -> currentPosition s = MIDDLE ->
  phasePending (exec tapCard1 s)
  /\ timeToIdle gap (exec tapCard1 s)
     = getCard1FromHomeMs s + getCard1TapPauseMs s + getCard1ToHomeMs s + 3 * gap.
Proof.
  intros idle middle. fields s. subst. unfold phasePending, timeToIdle, elapsed.
  destruct power; arith; rewrite usub_self; split; intros; lia.
Qed.

Lemma tapCard2_budget (gap : Z) (s : MotorController) :
  currentOperation s = IDLE -> currentPosition s = MIDDLE ->
  phasePending (exec tapCard2 s)
  /\ timeToIdle gap (exec tapCard2 s)
     = getCard2FromHomeMs s + getCard2TapPauseMs s + getCard2ToHomeMs s + 3 * gap.
Proof.
  intros idle middle. fields s. subst. unfold phasePending, timeToIdle, elapsed.
  destruct power; arith; rewrite usub_self; split; intros; lia.
Qed.

Lemma inTap1_at_rest (s : MotorController) :
  inTap1 s -> timedPhase s = false ->
  currentOperation s = IDLE /\ currentPosition s = MIDDLE.
Proof.
  unfold inTap1, timedPhase. destruct (currentOperation s); intros; try discriminate;
    try contradiction; auto.
Qed.

Lemma inTap2_at_rest (s : MotorController) :
  inTap2 s -> timedPhase s = false ->
  currentOperation s = IDLE /\ currentPosition s = MIDDLE.
Proof.
  unfold inTap2, timedPhase. destruct (currentOperation s); intros; try discriminate;
    try contradiction; auto.
Qed.

(** C2: a tap started at Middle with Operation = Idle.  Whatever readings
    the clock gives, the operations visited by the polls of
    updateDualCardOperations() form a prefix of MovingToCardX, TappingCardX,
    MovingToMiddle, Idle; once Idle is reached the whole sequence has been
    visited and Position = Middle.  With an advancing clock (every gap
    positive and at most [gap]) Idle is reached as soon as the three phase
    durations and one gap per phase have passed. *)
Theorem tap_visits_exact_sequence (s : MotorController) (ds : list Z) :
  currentOperation s = IDLE ->
  currentPosition s = MIDDLE ->
  let t1 := exec tapCard1 s in
  let t2 := exec tapCard2 s in
  ((exists rest,
      (visited (currentOperation t1 :: operations ds t1) ++ rest)%list = tapCard1Sequence)
   /\ (currentOperation (polls ds t1) = IDLE ->
       visited (currentOperation t1 :: operations ds t1) = tapCard1Sequence
       /\ currentPosition (polls ds t1) = MIDDLE)
   /\ (forall gap : Z,
         0 < gap -> gap + LONGEST_PHASE_MS < ULONG_RANGE ->
         Forall (fun d => 0 < d <= gap) ds ->
         getCard1FromHomeMs s + getCard1TapPauseMs s + getCard1ToHomeMs s + 3 * gap
           <= total ds ->
         currentOperation (polls ds t1) = IDLE))
  /\
  ((exists rest,
      (visited (currentOperation t2 :: operations ds t2) ++ rest)%list = tapCard2Sequence)
   /\ (currentOperation (polls ds t2) = IDLE ->
       visited (currentOperation t2 :: operations ds t2) = tapCard2Sequence
       /\ currentPosition (polls ds t2) = MIDDLE)
   /\ (forall gap : Z,
         0 < gap -> gap + LONGEST_PHASE_MS < ULONG_RANGE ->
         Forall (fun d => 0 < d <= gap) ds ->
         getCard2FromHomeMs s + getCard2TapPauseMs s + getCard2ToHomeMs s + 3 * gap
           <= total ds ->
         currentOperation (polls ds t2) = IDLE)).
Proof.
  intros idle middle t1 t2. split.
  - destruct (tapCard1_from_middle s idle middle) as (start & _).
    fold t1 in start.
    assert (inv : inTap1 t1) by (unfold inTap1; rewrite start; exact I).
    destruct (tap1_trace ds t1 inv) as (final & trace).
    assert (whole : restOfTap1 t1 = tapCard1Sequence)
      by (unfold restOfTap1; rewrite start; reflexivity).
    rewrite whole in trace.
    split; [eexists; exact trace |]. split.
    + intros done. split.
      * unfold restOfTap1 in trace. rewrite done in trace. cbn [tl] in trace.
        rewrite app_nil_r in trace. exact trace.
      * unfold inTap1 in final. rewrite done in final. exact final.
    + intros gap gappos room gaps enough.
      destruct (tapCard1_budget gap s idle middle) as (pending & budget).
      fold t1 in pending, budget.
      apply (inTap1_at_rest _ final).
      apply (polls_reach_rest gap ds gappos room gaps t1 pending).
      rewrite budget. exact enough.
  - destruct (tapCard2_from_middle s idle middle) as (start & _).
    fold t2 in start.
    assert (inv : inTap2 t2) by (unfold inTap2; rewrite start; exact I).
    destruct (tap2_trace ds t2 inv) as (final & trace).
    assert (whole : restOfTap2 t2 = tapCard2Sequence)
      by (unfold restOfTap2; rewrite start; reflexivity).
    rewrite whole in trace.
    split; [eexists; exact trace |]. split.
    + intros done. split.
      * unfold restOfTap2 in trace. rewrite done in trace. cbn [tl] in trace.
        rewrite app_nil_r in trace. exact trace.
      * unfold inTap2 in final. rewrite done in final. exact final.
    + intros gap gappos room gaps enough.
      destruct (tapCard2_budget gap s idle middle) as (pending & budget).
      fold t2 in pending, budget.
      apply (inTap2_at_rest _ final).
      apply (polls_reach_rest gap ds gappos room gaps t2 pending).
      rewrite budget. exact enough.
Qed.

Lemma tap_visits_exact_sequence_witness :
  let s := exec captureCurrentAsMiddle (exec init (constructed 0)) in
  let ds := [500; 500; 500; 500; 500; 500; 500; 500; 500; 500; 500] in
  visited (currentOperation (exec tapCard1 s) :: operations ds (exec tapCard1 s))
  = tapCard1Sequence
  /\ currentPosition (polls ds (exec tapCard1 s)) = MIDDLE
  /\ currentOperation (polls ds (exec tapCard2 s)) = IDLE.
Proof.
  pose proof (tap_visits_exact_sequence
                (exec captureCurrentAsMiddle (exec init (constructed 0)))
                [500; 500; 500; 500; 500; 500; 500; 500; 500; 500; 500]) as H.
  cbv zeta in H.
  destruct H as ((_ & whole & done1) & (_ & _ & done2)).
  - reflexivity.
  - reflexivity.
  - cbv zeta.
    assert (idle1 : currentOperation
                      (polls [500; 500; 500; 500; 500; 500; 500; 500; 500; 500; 500]
                         (exec tapCard1
                            (exec captureCurrentAsMiddle (exec init (constructed 0)))))
                    = IDLE).
    { apply (done1 500).
      + reflexivity.
      + reflexivity.
      + repeat (first [apply Forall_nil | apply Forall_cons; [lia |]]). 
      + vm_compute; discriminate. }
    destruct (whole idle1) as (seq & mid).
    split; [exact seq |]. split; [exact mid |].
    apply (done2 500).
      + reflexivity.
      + reflexivity.
      + repeat (first [apply Forall_nil | apply Forall_cons; [lia |]]). 
      + vm_compute; discriminate.
Defined.

(** ** A tap requested away from Middle *)

Lemma poll_resetting (d : Z) (s : MotorController) :
  resetting s -> resetting (poll d s).
Proof.
  intros inv. pose proof (poll_spec d s) as step. cbv zeta in step.
  destruct (timedPhase s && _).
  - destruct step as (o & p & _). unfold resetting in *.
    rewrite o, p. unfold nextOperation, nextPosition.
    destruct inv as [moving | (idle & middle)].
    + rewrite moving. destruct (previousPosition s); auto.
    + rewrite idle. auto.
  - rewrite step. unfold resetting in *. fields s. exact inv.
Qed.

Lemma polls_resetting (ds : list Z) :
  forall s : MotorController,
  resetting s ->
  resetting (polls ds s)
  /\ Forall (fun o => o = MOVING_TO_MIDDLE \/ o = IDLE) (operations ds s).
Proof.
  induction ds as [| d ds IH]; intros s inv; cbn [polls operations].
  - split; [assumption | constructor].
  - pose proof (poll_resetting d s inv) as inv'.
    destruct (IH _ inv') as (final & seen).
    split; [assumption |]. constructor; [| assumption].
    destruct inv' as [moving | (idle & _)]; auto.
Qed.

(** C7: with Operation = Idle and Position <> Middle, tapCard1() and
    tapCard2() do what resetToMiddle() does (only the serial log differs):
    Operation becomes MovingToMiddle.  No tap is started and none is kept
    for later: whatever the clock does, every later poll finds Operation
    MovingToMiddle or Idle, never an approach or a tap pause, and Idle is
    reached at Middle. *)
Theorem tap_off_middle_redirects (s : MotorController) (ds : list Z) :
  currentOperation s = IDLE ->
  currentPosition s <> MIDDLE ->
  forall tapCard : Method unit, In tapCard [tapCard1; tapCard2] ->
  let r := exec tapCard s in
  withoutSerial r = withoutSerial (exec resetToMiddle s)
  /\ currentOperation r = MOVING_TO_MIDDLE
  /\ currentPosition r = currentPosition s
  /\ Forall (fun o => o = MOVING_TO_MIDDLE \/ o = IDLE) (operations ds r)
  /\ (currentOperation (polls ds r) = IDLE -> currentPosition (polls ds r) = MIDDLE).
Proof.
  intros idle away tapCard which r.
  assert (start : withoutSerial r = withoutSerial (exec resetToMiddle s)
                  /\ currentOperation r = MOVING_TO_MIDDLE
                  /\ currentPosition r = currentPosition s).
  { subst r. cbn [In] in which. fields s. subst.
    destruct which as [<- | [<- | []]]; destruct pos; try congruence; repeat split. }
  destruct start as (same & moving & here).
  destruct (polls_resetting ds r (or_introl moving)) as (final & seen).
  repeat split; try assumption.
  intros done. destruct final as [still | (_ & middle)]; congruence.
Qed.

Lemma tap_off_middle_redirects_witness :
  let s := exec init (constructed 0) in
  currentOperation (exec tapCard1 s) = MOVING_TO_MIDDLE
  /\ Forall (fun o => o = MOVING_TO_MIDDLE \/ o = IDLE)
            (operations [2611; 1300; 5000] (exec tapCard1 s)).
Proof.
  pose proof (tap_off_middle_redirects (exec init (constructed 0)) [2611; 1300; 5000]) as H.
  destruct (H eq_refl ltac:(vm_compute; discriminate) tapCard1 (or_introl eq_refl))
    as (_ & moving & _ & seen & _).
  cbv zeta. split; [exact moving | exact seen].
Defined.

(** ** Recovery from an unknown position *)

(** C6, the code at the failing input: 12V profile, Position = Unknown.
    resetToMiddle() retracts; the poll at the full-retract duration switches
    to extend, sets the previous position to Card2 and restarts the timer,
    Operation still MovingToMiddle.  The poll taken when the
    half-travel-from-retracted duration (1284 ms) has passed finds the drive
    still extending: the second phase is timed by the Card2-to-home duration
    (1300 ms), and ends 16 ms later. *)
Theorem unknown_recovery_second_phase_overruns :
  let s := exec init (constructed 0) in
  let r := exec resetToMiddle s in
  let p1 := poll RETRACT_FULL_12V_MS r in
  let p2 := poll HOME_FROM_RETRACTED_12V_MS p1 in
  let p3 := poll 16 p2 in
  (currentPosition s, currentOperation s, is12VPower s) = (UNKNOWN, IDLE, true)
  /\ (currentOperation r, previousPosition r, currentState r)
     = (MOVING_TO_MIDDLE, UNKNOWN, STATE_RETRACTING)
  /\ (currentOperation p1, previousPosition p1, currentState p1, elapsed p1)
     = (MOVING_TO_MIDDLE, CARD2, STATE_EXTENDING, 0)
  /\ elapsed p2 = getHomeFromRetractedMs p2
  /\ (currentOperation p2, currentPosition p2, currentState p2)
     = (MOVING_TO_MIDDLE, UNKNOWN, STATE_EXTENDING)
  /\ phaseTimeout p2 = getCard2ToHomeMs p2
  /\ (currentOperation p3, currentPosition p3, currentState p3)
     = (IDLE, MIDDLE, STATE_IDLE).
Proof. vm_compute. repeat split. Qed.

(** ** The safety watchdog (checkLimitSwitches) *)

Lemma isTapping_false (s : MotorController) :
  isTapping s = false <->
  tapState s = TAP_IDLE /\ timedOperation s = false /\ currentOperation s = IDLE.
Proof.
  fields s. unfold isTapping. cbn.
  destruct tst, timed, op; cbn; split; intros; try discriminate; repeat split;
    try tauto; destruct H as (? & ? & ?); discriminate.
Qed.

Ltac split_tests :=
  repeat (match goal with
          | |- context [?a =? ?b] => destruct (Z.eqb_spec a b)
          | |- context [?a >? ?b] => destruct (Z.gtb_spec a b)
          end; run).

Lemma watchdogPoll_progress (gap d : Z) (s : MotorController) :
  0 < d <= gap -> gap + SAFETY_TIMEOUT_MS < ULONG_RANGE ->
  isTapping s = false ->
  isTapping (watchdogPoll d s) = false
  /\ watchdogBudget gap (watchdogPoll d s) <= Z.max 0 (watchdogBudget gap s - d).
Proof.
  intros gapd room free.
  apply isTapping_false in free. destruct free as (t & o & i).
  pose proof (usub_range (clock s) (moveStartTime s)) as range.
  pose proof (usub_range ((clock s + d) mod ULONG_RANGE) (moveStartTime s)) as range'.
  unfold SAFETY_TIMEOUT_MS in room.
  assert (grows : usub (clock s) (moveStartTime s) <= 5000 ->
                  usub ((clock s + d) mod ULONG_RANGE) (moveStartTime s)
                  = usub (clock s) (moveStartTime s) + d).
  { intros small. rewrite usub_advance. apply Z.mod_small. lia. }
  assert (sentinel : clock s mod ULONG_RANGE = 0 -> (clock s + d) mod ULONG_RANGE = d).
  { intros zero. rewrite <- Zplus_mod_idemp_l, zero. apply Z.mod_small. lia. }
  fields s. subst.
  unfold watchdogBudget, SAFETY_TIMEOUT_MS in *.
  destruct cst; run.
  - split; [reflexivity | lia].
  - split_tests; rewrite ?usub_self, ?Z.mod_mod in * by (unfold ULONG_RANGE; lia);
      (split; [reflexivity | lia]).
  - split_tests; rewrite ?usub_self, ?Z.mod_mod in * by (unfold ULONG_RANGE; lia);
      (split; [reflexivity | lia]).
Qed.

Lemma watchdogBudget_positive (gap : Z) (s : MotorController) :
  0 < gap -> isTapping s = false -> driving s = true -> 0 < watchdogBudget gap s.
Proof.
  intros gappos free moving. unfold watchdogBudget. rewrite free, moving. cbn [orb negb].
  unfold SAFETY_TIMEOUT_MS.
  destruct (moveStartTime s =? 0); [destruct (_ =? 0); lia |].
  destruct (Z.gtb_spec (usub (clock s) (moveStartTime s)) 5000); lia.
Qed.

Lemma watchdogBudget_bound (gap : Z) (s : MotorController) :
  0 < gap -> watchdogBudget gap s <= SAFETY_TIMEOUT_MS + 1 + 2 * gap.
Proof.
  intros gappos. unfold watchdogBudget, SAFETY_TIMEOUT_MS.
  pose proof (usub_range (clock s) (moveStartTime s)).
  destruct (isTapping s || negb (driving s)); [lia |].
  destruct (moveStartTime s =? 0); [destruct (_ =? 0); lia |].
  destruct (Z.gtb_spec (usub (clock s) (moveStartTime s)) 5000); lia.
Qed.

Lemma watchdogPolls_stop (gap : Z) (ds : list Z) :
  0 < gap -> gap + SAFETY_TIMEOUT_MS < ULONG_RANGE ->
  Forall (fun d => 0 < d <= gap) ds ->
  forall s : MotorController,
  isTapping s = false ->
  watchdogBudget gap s <= total ds ->
  driving (watchdogPolls ds s) = false.
Proof.
  intros gappos room gaps. induction gaps as [| d ds dgap gaps IH]; intros s free enough;
    cbn [watchdogPolls total] in *.
  - destruct (driving s) eqn:moving; [| reflexivity].
    pose proof (watchdogBudget_positive gap s gappos free moving). lia.
  - destruct (watchdogPoll_progress gap d s dgap room free) as (free' & less).
    apply IH; [assumption |].
    pose proof (total_nonneg gap ds gaps). lia.
Qed.

Lemma watchdogPoll_when_controlled (d : Z) (s : MotorController) :
  isTapping s = true -> watchdogPoll d s = set_moveStartTime 0 (advance d s).
Proof.
  intros busy. fields s. unfold isTapping in busy. cbn in busy.
  unfold watchdogPoll, exec, execState, checkLimitSwitches, advance.
  cbn [set_clock]. unfold isTapping, read. cbn.
  rewrite busy. reflexivity.
Qed.

Lemma watchdogPolls_when_controlled (ds : list Z) :
  forall s : MotorController,
  isTapping s = true ->
  let s' := watchdogPolls ds s in
  isTapping s' = true
  /\ currentState s' = currentState s /\ pinIN1 s' = pinIN1 s /\ pinIN2 s' = pinIN2 s
  /\ mqttLog s' = mqttLog s.
Proof.
  induction ds as [| d ds IH]; intros s busy; cbn [watchdogPolls]; cbv zeta.
  - repeat split; assumption.
  - rewrite (watchdogPoll_when_controlled d s busy).
    specialize (IH (set_moveStartTime 0 (advance d s))).
    fields s. apply IH. exact busy.
Qed.

Lemma checkLimitSwitches_uncontrolled (s : MotorController) :
  isTapping s = false -> driving s = true ->
  let s' := exec checkLimitSwitches s in
  (moveStartTime s = 0 -> s' = set_moveStartTime (clock s) s)
  /\ (moveStartTime s <> 0 -> usub (clock s) (moveStartTime s) <= SAFETY_TIMEOUT_MS ->
      s' = s)
  /\ (moveStartTime s <> 0 -> SAFETY_TIMEOUT_MS < usub (clock s) (moveStartTime s) ->
      currentState s' = STATE_IDLE /\ pinIN1 s' = LOW /\ pinIN2 s' = LOW
      /\ moveStartTime s' = 0).
Proof.
  intros free moving. apply isTapping_false in free. destruct free as (t & o & i).
  fields s. subst. unfold driving in moving. cbn in moving. unfold SAFETY_TIMEOUT_MS.
  destruct cst; try discriminate moving; run;
    (split; [| split]); intros;
    split_tests; try reflexivity; try lia; repeat split.
Qed.

(** C5: checkLimitSwitches() never touches the drive while a recognised
    operation is active (legacy tap, timed operation or dual-card
    Operation), for however long and whatever the clock reads: it only
    clears its timer.  With no such operation active and the drive
    extending or retracting, a poll arms the timer if it is not armed,
    leaves everything alone while at most the safety ceiling has passed
    since arming, and force-stops the drive (DriveState Idle, both pins
    low, timer cleared) once more than the ceiling has passed.  Under an
    advancing clock with gaps of at most [gap], an uncontrolled drive is
    stopped by the time the ceiling and two gaps have passed. *)
Theorem watchdog_stops_only_uncontrolled_drive (s : MotorController) :
  (isTapping s = true ->
   exec checkLimitSwitches s = set_moveStartTime 0 s
   /\ forall ds : list Z,
        currentState (watchdogPolls ds s) = currentState s
        /\ pinIN1 (watchdogPolls ds s) = pinIN1 s
        /\ pinIN2 (watchdogPolls ds s) = pinIN2 s)
  /\ (isTapping s = false -> driving s = true ->
      let s' := exec checkLimitSwitches s in
      (moveStartTime s = 0 -> s' = set_moveStartTime (clock s) s)
      /\ (moveStartTime s <> 0 ->
          usub (clock s) (moveStartTime s) <= SAFETY_TIMEOUT_MS -> s' = s)
      /\ (moveStartTime s <> 0 ->
          SAFETY_TIMEOUT_MS < usub (clock s) (moveStartTime s) ->
          currentState s' = STATE_IDLE /\ pinIN1 s' = LOW /\ pinIN2 s' = LOW
          /\ moveStartTime s' = 0))
  /\ (isTapping s = false ->
      forall (gap : Z) (ds : list Z),
        0 < gap -> gap + SAFETY_TIMEOUT_MS < ULONG_RANGE ->
        Forall (fun d => 0 < d <= gap) ds ->
        SAFETY_TIMEOUT_MS + 2 * gap < total ds ->
        currentState (watchdogPolls ds s) = STATE_IDLE).
Proof.
  split; [| split].
  - intros busy. split.
    + pose proof (watchdogPoll_when_controlled 0 s busy) as quiet.
      fields s. unfold isTapping in busy. cbn in busy.
      unfold exec, execState, checkLimitSwitches, isTapping, read. cbn.
      rewrite busy. reflexivity.
    + intros ds. destruct (watchdogPolls_when_controlled ds s busy) as (_ & a & b & c & _).
      auto.
  - apply checkLimitSwitches_uncontrolled.
  - intros free gap ds gappos room gaps enough.
    assert (stopped : driving (watchdogPolls ds s) = false).
    { apply (watchdogPolls_stop gap ds gappos room gaps s free).
      pose proof (watchdogBudget_bound gap s gappos). lia. }
    unfold driving in stopped.
    destruct (currentState (watchdogPolls ds s)); [reflexivity | discriminate ..].
Qed.

Lemma watchdog_stops_only_uncontrolled_drive_witness :
  let runaway := exec extend (exec init (constructed 1)) in
  let tapping := exec startTap (exec init (constructed 1)) in
  currentState (watchdogPolls [9000] tapping) = STATE_EXTENDING
  /\ currentState (exec checkLimitSwitches (advance 5001 (watchdogPoll 10 runaway)))
     = STATE_IDLE
  /\ currentState (watchdogPolls [2500; 2500; 2500; 2500; 1] runaway) = STATE_IDLE.
Proof.
  cbv zeta. split; [| split].
  - destruct (watchdog_stops_only_uncontrolled_drive
                (exec startTap (exec init (constructed 1)))) as (busy & _).
    destruct (busy eq_refl) as (_ & kept).
    destruct (kept [9000]) as (same & _). rewrite same. reflexivity.
  - destruct (watchdog_stops_only_uncontrolled_drive
                (advance 5001 (watchdogPoll 10 (exec extend (exec init (constructed 1))))))
      as (_ & loose & _).
    destruct (loose eq_refl eq_refl) as (_ & _ & fire).
    apply fire.
    + vm_compute. discriminate.
    + vm_compute. reflexivity.
  - destruct (watchdog_stops_only_uncontrolled_drive
                (exec extend (exec init (constructed 1)))) as (_ & _ & bounded).
    apply (bounded eq_refl 2500).
    + reflexivity.
    + reflexivity.
    + repeat (first [apply Forall_nil | apply Forall_cons; [lia |]]).
    + vm_compute. reflexivity.
Defined.

(** ** The return-to-middle lookup *)

Lemma polls_keep_power (ds : list Z) :
  forall s : MotorController, is12VPower (polls ds s) = is12VPower s.
Proof.
  induction ds as [| d ds IH]; intros s; cbn [polls]; [reflexivity |].
  rewrite IH. pose proof (poll_spec d s) as step. cbv zeta in step.
  destruct (timedPhase s && _).
  - destruct step as (_ & _ & _ & _ & _ & _ & same). exact same.
  - rewrite step. fields s. reflexivity.
Qed.

Lemma taps_keep_power (s : MotorController) :
  is12VPower (exec tapCard1 s) = is12VPower s
  /\ is12VPower (exec tapCard2 s) = is12VPower s.
Proof. fields s. split; destruct op, pos; reflexivity. Qed.

Lemma lookup_by_power (entry : Duration) (s s' : MotorController) :
  is12VPower s' = is12VPower s -> lookup entry s' = lookup entry s.
Proof. intros same. rewrite !lookup_reads_profile, same. reflexivity. Qed.




(** * Further properties of the controller *)

(** ** The two outputs never fight *)

Lemma exec_seq {A : Type} (first : Method A) (next : Method unit) (s : MotorController) :
  exec (first ;; next) s = exec next (exec first s).
Proof.
  unfold exec, execState. cbn. destruct (runState first s). reflexivity.
Qed.

(** Decide every clock comparison a method makes, running on after each. *)
Ltac decide_tests :=
  repeat (match goal with
          | |- context [?a =? ?b] => destruct (Z.eqb_spec a b)
          | |- context [?a >? ?b] => destruct (Z.gtb_spec a b)
          | |- context [?a >=? ?b] => destruct (Z.geb_spec a b)
          end; run).

Ltac pins_by_cases :=
  unfold pinsFollowState in *;
  cbn [pinIN1 pinIN2 currentState] in *;
  run; decide_tests; try reflexivity; try assumption.

Lemma extend_sets_pins (s : MotorController) : pinsFollowState (exec extend s).
Proof. fields s. reflexivity. Qed.

Lemma retract_sets_pins (s : MotorController) : pinsFollowState (exec retract s).
Proof. fields s. reflexivity. Qed.

Lemma stop_sets_pins (s : MotorController) : pinsFollowState (exec stop s).
Proof. fields s. reflexivity. Qed.

Lemma dual_card_calls_keep_pins (s : MotorController) :
  pinsFollowState s ->
  pinsFollowState (exec resetToMiddle s)
  /\ pinsFollowState (exec tapCard1 s)
  /\ pinsFollowState (exec tapCard2 s)
  /\ pinsFollowState (exec captureCurrentAsMiddle s)
  /\ pinsFollowState (exec updateDualCardOperations s).
Proof.
  intros agree. fields s.
  repeat split; destruct op, pos; try destruct prev; try destruct power; pins_by_cases.
Qed.

Lemma manual_calls_keep_pins (s : MotorController) :
  pinsFollowState (exec manualExtend s)
  /\ pinsFollowState (exec manualRetract s)
  /\ pinsFollowState (exec manualStop s).
Proof.
  fields s. repeat split; destruct op, mactive; reflexivity.
Qed.

Lemma timed_calls_keep_pins (s : MotorController) (duration_ms : Z) :
  pinsFollowState s ->
  pinsFollowState (exec (extendForTime duration_ms) s)
  /\ pinsFollowState (exec (retractForTime duration_ms) s)
  /\ pinsFollowState (exec updateTimedOperations s).
Proof.
  intros agree. fields s.
  repeat split; destruct timed; try destruct okind; pins_by_cases.
Qed.

Lemma other_calls_keep_pins (s : MotorController) :
  pinsFollowState s ->
  pinsFollowState (exec startTap s)
  /\ pinsFollowState (exec updateTap s)
  /\ pinsFollowState (exec checkLimitSwitches s)
  /\ pinsFollowState (exec setPowerSource12V s)
  /\ pinsFollowState (exec setPowerSourceUSB s)
  /\ pinsFollowState (exec init s).
Proof.
  intros agree. fields s.
  repeat split; try reflexivity; try exact agree.
  - destruct tst; pins_by_cases.
  - destruct tst, timed, op, cst; pins_by_cases.
Qed.

Lemma println_keeps_pins (line : string) (s : MotorController) :
  pinsFollowState s -> pinsFollowState (exec (Serial_println line) s).
Proof. intros agree. fields s. exact agree. Qed.

Lemma call_keeps_pins (c : Call) (s : MotorController) :
  pinsFollowState s -> pinsFollowState (exec (call c) s).
Proof.
  intros agree.
  destruct c as [command | duration_ms | duration_ms | | | | |]; cbn [call].
  - unfold handleCommand. rewrite exec_seq.
    pose proof (println_keeps_pins ("[Router] Handling command: " ++ command) s agree)
      as logged.
    set (s1 := exec (Serial_println _) s) in *. clearbody s1.
    destruct (other_calls_keep_pins s1 logged) as (tap & _ & _ & p12 & usb & _).
    destruct (dual_card_calls_keep_pins s1 logged) as (reset & tap1 & tap2 & capture & _).
    destruct (manual_calls_keep_pins s1) as (mext & mret & mstop).
    destruct (command =? "extend")%string; [exact (extend_sets_pins s1) |].
    destruct (command =? "retract")%string; [exact (retract_sets_pins s1) |].
    destruct (command =? "stop")%string; [exact (stop_sets_pins s1) |].
    destruct (command =? "tap")%string; [exact tap |].
    destruct (command =? "reset_to_middle")%string; [exact reset |].
    destruct (command =? "tap_card1")%string; [exact tap1 |].
    destruct (command =? "tap_card2")%string; [exact tap2 |].
    destruct (command =? "manual_extend")%string; [exact mext |].
    destruct (command =? "manual_retract")%string; [exact mret |].
    destruct (command =? "manual_stop")%string; [exact mstop |].
    destruct (command =? "capture_middle")%string; [exact capture |].
    destruct (command =? "power_12v")%string; [exact p12 |].
    destruct (command =? "power_usb")%string; [exact usb |].
    exact (println_keeps_pins _ s1 logged).
  - exact (proj1 (timed_calls_keep_pins s duration_ms agree)).
  - exact (proj1 (proj2 (timed_calls_keep_pins s duration_ms agree))).
  - exact (proj2 (proj2 (timed_calls_keep_pins s 0 agree))).
  - destruct (other_calls_keep_pins s agree) as (_ & kept & _). exact kept.
  - destruct (dual_card_calls_keep_pins s agree) as (_ & _ & _ & _ & kept). exact kept.
  - destruct (other_calls_keep_pins s agree) as (_ & _ & kept & _). exact kept.
  - destruct (other_calls_keep_pins s agree) as (_ & _ & _ & _ & _ & kept). exact kept.
Qed.



(** ** Commands the router does not know *)

Lemma unknown_is_none_of (command : string) :
  ~ In command knownCommands ->
  Forall (fun known => (command =? known)%string = false) knownCommands.
Proof.
  intros unknown. apply Forall_forall. intros known isKnown.
  apply String.eqb_neq. intros same. apply unknown. rewrite same. exact isKnown.
Qed.

(** A command string that is none of the thirteen verbs (the comparison is
    exact, so also a verb in another case or with a space) changes nothing
    but the serial log, which gains the two router lines. *)
Theorem unknown_command_is_ignored (command : string) (s : MotorController) :
  ~ In command knownCommands ->
  exec (handleCommand command) s
  = set_serialLog (serialLog s ++ ["[Router] Handling command: " ++ command;
                                   "[Router] Unknown command: " ++ command]) s.
Proof.
  intros unknown. pose proof (unknown_is_none_of command unknown) as none.
  unfold knownCommands in none.
  repeat match type of none with
         | Forall _ (_ :: _) =>
             let head := fresh "head" in
             inversion none as [| ? ? head rest]; subst; clear none; rename rest into none
         end.
  unfold handleCommand. rewrite exec_seq.
  repeat match goal with
         | miss : (command =? _)%string = false |- _ => rewrite miss; clear miss
         end.
  fields s. unfold exec, execState, Serial_println. cbn.
  rewrite <- app_assoc. reflexivity.
Qed.

Lemma unknown_command_is_ignored_witness :
  let s := exec tapCard1 (exec captureCurrentAsMiddle (exec init (constructed 0))) in
  currentState (exec (handleCommand "STOP") s) = STATE_EXTENDING
  /\ currentOperation (exec (handleCommand "tap_card3") s) = MOVING_TO_CARD1.
Proof.
  cbv zeta. split.
  - rewrite unknown_command_is_ignored; [reflexivity |].
    cbn [In knownCommands]. intros hit.
    repeat (destruct hit as [hit | hit]; [discriminate hit |]). exact hit.
  - rewrite unknown_command_is_ignored; [reflexivity |].
    cbn [In knownCommands]. intros hit.
    repeat (destruct hit as [hit | hit]; [discriminate hit |]). exact hit.
Defined.

(** ** How long the sequencer takes *)

(** A poll cannot use up more of the remaining time than the gap before it. *)
Lemma poll_spends_at_most_gap (gap d : Z) (s : MotorController) :
  0 < d <= gap -> gap + LONGEST_PHASE_MS < ULONG_RANGE ->
  phasePending s ->
  timeLeft s - d <= timeLeft (poll d s).
Proof.
  intros gapd room pending.
  pose proof (poll_spec d s) as step. cbv zeta in step.
  pose proof (usub_advance (clock s) d (dualCardOperationStartTime s)) as adv.
  pose proof (usub_range (clock s) (dualCardOperationStartTime s)) as range.
  pose proof (phaseTimeout_bounds s) as bounds.
  unfold phasePending in pending.
  generalize dependent (poll d s). intros s' step.
  unfold timeLeft, elapsed in *.
  unfold LONGEST_PHASE_MS, RETRACT_FULL_USB_MS in room, bounds.
  destruct (timedPhase s) eqn:tp; cbn [andb] in step.
  - specialize (pending eq_refl). specialize (bounds eq_refl).
    assert (adv' : usub (clock (advance d s)) (dualCardOperationStartTime (advance d s))
                   = usub (clock s) (dualCardOperationStartTime s) + d).
    { fields s. unfold advance. cbn [clock dualCardOperationStartTime set_clock].
      rewrite adv. apply Z.mod_small. lia. }
    destruct (Z.geb_spec (usub (clock (advance d s)) (dualCardOperationStartTime (advance d s)))
                         (phaseTimeout s)) as [due | early].
    + destruct step as (o & p & q & cs & st & ck & pw).
      fields s. fields' s'. subst.
      destruct op, prev, power; try discriminate tp; arith;
        try (specialize (st ltac:(discriminate)); subst dstart');
        rewrite ?usub_self; lia.
    + subst s'. fields s. unfold advance.
      destruct op, prev, power; try discriminate tp; arith; lia.
  - subst s'. fields s. unfold advance.
    destruct op; try discriminate tp; arith; lia.
Qed.

Lemma timeLeft_zero_at_rest (s : MotorController) :
  timedPhase s = false -> timeLeft s = 0.
Proof. unfold timeLeft. intros ->. reflexivity. Qed.

(** While less than the remaining time has passed, the sequencer is busy. *)
Lemma polls_stay_busy (gap : Z) (ds : list Z) :
  0 < gap -> gap + LONGEST_PHASE_MS < ULONG_RANGE ->
  Forall (fun d => 0 < d <= gap) ds ->
  forall s : MotorController,
  phasePending s ->
  total ds < timeLeft s ->
  timedPhase (polls ds s) = true.
Proof.
  intros gappos room gaps. induction gaps as [| d ds dgap gaps IH]; intros s pending short;
    cbn [polls total] in *.
  - destruct (timedPhase s) eqn:tp; [reflexivity |].
    rewrite (timeLeft_zero_at_rest s tp) in short. lia.
  - destruct (poll_progress gap d s dgap room pending) as (pending' & _).
    pose proof (poll_spends_at_most_gap gap d s dgap room pending).
    apply IH; [assumption | lia].
Qed.

Lemma poll_keeps_settled (d : Z) (s : MotorController) :
  (currentOperation s = IDLE -> currentPosition s = MIDDLE /\ currentState s = STATE_IDLE) ->
  currentOperation (poll d s) = IDLE ->
  currentPosition (poll d s) = MIDDLE /\ currentState (poll d s) = STATE_IDLE.
Proof.
  intros settled. pose proof (poll_spec d s) as step. cbv zeta in step.
  destruct (timedPhase s && _) eqn:fired.
  - destruct step as (o & p & _ & cs & _). rewrite o, p, cs.
    unfold nextOperation, nextPosition, nextDrive. unfold timedPhase in fired.
    destruct (currentOperation s); try discriminate;
      destruct (previousPosition s); try discriminate; auto.
  - rewrite step. fields s. exact settled.
Qed.

Lemma polls_keep_settled (ds : list Z) :
  forall s : MotorController,
  (currentOperation s = IDLE -> currentPosition s = MIDDLE /\ currentState s = STATE_IDLE) ->
  currentOperation (polls ds s) = IDLE ->
  currentPosition (polls ds s) = MIDDLE /\ currentState (polls ds s) = STATE_IDLE.
Proof.
  induction ds as [| d ds IH]; intros s settled; cbn [polls].
  - exact settled.
  - apply IH. apply poll_keeps_settled. exact settled.
Qed.

Lemma polls_never_turn_manual (ds : list Z) :
  forall s : MotorController,
  currentOperation s <> MANUAL_OPERATION ->
  currentOperation (polls ds s) <> MANUAL_OPERATION.
Proof.
  induction ds as [| d ds IH]; intros s auto; cbn [polls]; [exact auto |].
  apply IH. pose proof (poll_spec d s) as step. cbv zeta in step.
  destruct (timedPhase s && _).
  - destruct step as (o & _). rewrite o. unfold nextOperation.
    destruct (currentOperation s); try discriminate; try congruence;
      destruct (previousPosition s); discriminate.
  - rewrite step. fields s. exact auto.
Qed.

Lemma at_rest_means_idle (s : MotorController) :
  timedPhase s = false -> currentOperation s <> MANUAL_OPERATION -> currentOperation s = IDLE.
Proof. unfold timedPhase. destruct (currentOperation s); congruence. Qed.

(** The duration of a return to Middle as the code times it. *)
Lemma resetToMiddle_starts (s : MotorController) :
  currentOperation s = IDLE -> currentPosition s <> MIDDLE ->
  let r := exec resetToMiddle s in
  currentOperation r = MOVING_TO_MIDDLE
  /\ previousPosition r = currentPosition s
  /\ currentState r = (if Position_eqb (currentPosition s) CARD2
                       then STATE_EXTENDING else STATE_RETRACTING)
  /\ phasePending r
  /\ timeLeft r = match currentPosition s with
                  | CARD1 => getCard1ToHomeMs s
                  | CARD2 => getCard2ToHomeMs s
                  | _ => getRetractFullMs s + getCard2ToHomeMs s
                  end
  /\ laterPhases r = (if Position_eqb (currentPosition s) UNKNOWN then 1 else 0).
Proof.
  intros idle away. fields s. subst. unfold phasePending, timeLeft, elapsed.
  destruct pos, power; try congruence; arith; rewrite usub_self;
    repeat split; intros; lia.
Qed.

(** resetToMiddle() at Middle only logs.  From Card1 it retracts and from
    Card2 it extends; under an advancing clock Operation is still
    MovingToMiddle while less than that card's return duration has passed,
    and the drive is stopped with Operation = Idle and Position = Middle
    once the duration and one poll gap have passed.  From Unknown it
    retracts, and the same holds for the full-retract duration followed by
    the Card2 return duration, with two poll gaps. *)
Theorem resetToMiddle_timing (gap : Z) (ds : list Z) (s : MotorController) :
  currentOperation s = IDLE ->
  let r := exec resetToMiddle s in
  let duration := match currentPosition s with
                  | CARD1 => getCard1ToHomeMs s
                  | CARD2 => getCard2ToHomeMs s
                  | _ => getRetractFullMs s + getCard2ToHomeMs s
                  end in
  let phases := if Position_eqb (currentPosition s) UNKNOWN then 2 else 1 in
  (currentPosition s = MIDDLE ->
   withoutSerial r = withoutSerial s)
  /\ (currentPosition s <> MIDDLE ->
      0 < gap -> gap + LONGEST_PHASE_MS < ULONG_RANGE ->
      Forall (fun d => 0 < d <= gap) ds ->
      currentState r = (if Position_eqb (currentPosition s) CARD2
                        then STATE_EXTENDING else STATE_RETRACTING)
      /\ (total ds < duration -> currentOperation (polls ds r) = MOVING_TO_MIDDLE)
      /\ (duration + phases * gap <= total ds ->
          currentOperation (polls ds r) = IDLE
          /\ currentPosition (polls ds r) = MIDDLE
          /\ currentState (polls ds r) = STATE_IDLE)).
Proof.
  intros idle r duration phases. split.
  - intros middle. subst r. fields s. subst. reflexivity.
  - intros away gappos room gaps.
    destruct (resetToMiddle_starts s idle away) as (moving & prev & drive & pending & left & later).
    fold r in moving, prev, drive, pending, left, later. fold duration in left.
    destruct (polls_resetting ds r (or_introl moving)) as (final & _).
    split; [exact drive |]. split.
    + intros short.
      assert (busy : timedPhase (polls ds r) = true).
      { apply (polls_stay_busy gap ds gappos room gaps r pending). lia. }
      destruct final as [still | (done & _)]; [exact still |].
      unfold timedPhase in busy. rewrite done in busy. discriminate.
    + intros enough.
      assert (rest : timedPhase (polls ds r) = false).
      { apply (polls_reach_rest gap ds gappos room gaps r pending).
        unfold timeToIdle. unfold timeLeft in left.
        assert (timed : timedPhase r = true) by (unfold timedPhase; rewrite moving; reflexivity).
        rewrite timed in *. rewrite later. subst phases.
        destruct (Position_eqb (currentPosition s) UNKNOWN); lia. }
      assert (done : currentOperation (polls ds r) = IDLE).
      { destruct final as [still | (done & _)]; [| exact done].
        unfold timedPhase in rest. rewrite still in rest. discriminate. }
      split; [exact done |].
      apply polls_keep_settled; [| exact done].
      intros wasIdle. congruence.
Qed.

Lemma resetToMiddle_timing_witness :
  let s := exec manualStop
             (polls [1100] (exec tapCard1
                              (exec captureCurrentAsMiddle (exec init (constructed 0))))) in
  let r := exec resetToMiddle s in
  currentPosition s = CARD1
  /\ currentOperation (polls [400; 400; 299] r) = MOVING_TO_MIDDLE
  /\ currentPosition (polls [400; 400; 400; 400] r) = MIDDLE.
Proof.
  set (s := exec manualStop
              (polls [1100] (exec tapCard1
                               (exec captureCurrentAsMiddle (exec init (constructed 0)))))).
  assert (idle : currentOperation s = IDLE) by reflexivity.
  assert (away : currentPosition s <> MIDDLE) by (vm_compute; discriminate).
  cbv zeta. split; [reflexivity |]. split.
  - destruct (resetToMiddle_timing 400 [400; 400; 299] s idle) as (_ & timing).
    specialize (timing away eq_refl eq_refl).
    destruct timing as (_ & busy & _).
    + repeat (apply Forall_cons; [lia |]); apply Forall_nil.
    + apply busy. vm_compute. reflexivity.
  - destruct (resetToMiddle_timing 400 [400; 400; 400; 400] s idle) as (_ & timing).
    specialize (timing away eq_refl eq_refl).
    destruct timing as (_ & _ & done).
    + repeat (apply Forall_cons; [lia |]); apply Forall_nil.
    + destruct done as (_ & middle & _); [vm_compute; discriminate | exact middle].
Defined.

Lemma advance_advance (d d' : Z) (s : MotorController) :
  advance d' (advance d s) = advance (d + d') s.
Proof.
  fields s. unfold advance. cbn [set_clock clock].
  replace (((clk + d) mod ULONG_RANGE + d') mod ULONG_RANGE)
    with ((clk + (d + d')) mod ULONG_RANGE); [reflexivity |].
  rewrite Zplus_mod_idemp_l. f_equal; lia.
Qed.

Lemma advance_nothing (s : MotorController) :
  0 <= clock s < ULONG_RANGE -> advance 0 s = s.
Proof.
  intros inRange. fields s. unfold advance. cbn [set_clock clock].
  rewrite Z.add_0_r, Z.mod_small by assumption. reflexivity.
Qed.

(** Polls that come before the end of the current phase only see the
    clock move. *)
Lemma polls_within_phase (gap : Z) (ds : list Z) :
  0 < gap -> gap + LONGEST_PHASE_MS < ULONG_RANGE ->
  Forall (fun d => 0 < d <= gap) ds ->
  forall (s : MotorController) (d0 : Z),
  0 <= d0 ->
  phasePending (advance d0 s) ->
  elapsed (advance d0 s) + total ds < phaseTimeout s ->
  polls ds (advance d0 s) = advance (d0 + total ds) s.
Proof.
  intros gappos room gaps.
  induction gaps as [| d ds dgap gaps IH]; intros s d0 d0pos pending short;
    cbn [polls total] in *.
  - rewrite Z.add_0_r. reflexivity.
  - pose proof (total_nonneg gap ds gaps) as nonneg.
    pose proof (poll_spec d (advance d0 s)) as step. cbv zeta in step.
    assert (same : phaseTimeout (advance d0 s) = phaseTimeout s) by (fields s; reflexivity).
    assert (timedSame : timedPhase (advance d0 s) = timedPhase s) by (fields s; reflexivity).
    pose proof (usub_range (clock (advance d0 s)) (dualCardOperationStartTime (advance d0 s)))
      as range.
    fold (elapsed (advance d0 s)) in range.
    assert (grow : elapsed (advance d (advance d0 s)) = elapsed (advance d0 s) + d).
    { unfold elapsed. fields s. unfold advance. cbn [set_clock clock dualCardOperationStartTime].
      rewrite usub_advance. apply Z.mod_small.
      unfold elapsed, advance in short, range.
      cbn [set_clock clock dualCardOperationStartTime] in short, range.
      pose proof (phaseTimeout_bounds
                    (Build_MotorController clk in1 in2 slog mlog cst tst tstart ttimeout
                       tpause timed ostart odur okind pos prev op dstart mstart mactive
                       power armed)) as bounds.
      destruct (timedPhase _) eqn:tp in bounds.
      - specialize (bounds eq_refl). unfold LONGEST_PHASE_MS, RETRACT_FULL_USB_MS in *. lia.
      - clear bounds. unfold phaseTimeout, timedPhase in *. cbn in *.
        destruct op; try discriminate tp; lia. }
    assert (quiet : poll d (advance d0 s) = advance d (advance d0 s)).
    { destruct (timedPhase (advance d0 s)); cbn [andb] in step; [| exact step].
      destruct (Z.geb_spec (elapsed (advance d (advance d0 s)))
                           (phaseTimeout (advance d0 s))) as [due | early];
        [| exact step].
      rewrite same, grow in due. lia. }
    rewrite quiet, advance_advance.
    replace (d0 + (d + total ds)) with ((d0 + d) + total ds) by lia.
    apply IH.
    + lia.
    + rewrite <- advance_advance. unfold phasePending.
      intros tp. rewrite grow.
      assert (phaseTimeout (advance d (advance d0 s)) = phaseTimeout s) as ->
        by (fields s; reflexivity).
      lia.
    + rewrite <- advance_advance, grow. lia.
Qed.

(** A tap is not cut short.  Under an advancing clock, while less than the
    approach duration has passed since tapCardX() the polls change nothing
    but the clock (the drive keeps running towards the card), and Idle is
    not reached before the approach, pause and return durations have all
    passed. *)
Theorem tap_takes_its_full_duration (gap : Z) (ds : list Z) (s : MotorController) :
  currentOperation s = IDLE ->
  currentPosition s = MIDDLE ->
  0 <= clock s < ULONG_RANGE ->
  0 < gap -> gap + LONGEST_PHASE_MS < ULONG_RANGE ->
  Forall (fun d => 0 < d <= gap) ds ->
  let t1 := exec tapCard1 s in
  let t2 := exec tapCard2 s in
  (total ds < getCard1FromHomeMs s -> polls ds t1 = advance (total ds) t1)
  /\ (total ds < getCard1FromHomeMs s + getCard1TapPauseMs s + getCard1ToHomeMs s ->
      currentOperation (polls ds t1) <> IDLE)
  /\ (total ds < getCard2FromHomeMs s -> polls ds t2 = advance (total ds) t2)
  /\ (total ds < getCard2FromHomeMs s + getCard2TapPauseMs s + getCard2ToHomeMs s ->
      currentOperation (polls ds t2) <> IDLE).
Proof.
  intros idle middle inRange gappos room gaps t1 t2.
  destruct (tapCard1_budget gap s idle middle) as (pending1 & budget1).
  destruct (tapCard2_budget gap s idle middle) as (pending2 & budget2).
  destruct (tapCard1_from_middle s idle middle) as (op1 & _ & _ & _ & _ & _ & st1 & ck1 & pw1).
  destruct (tapCard2_from_middle s idle middle) as (op2 & _ & _ & _ & _ & _ & st2 & ck2 & pw2).
  fold t1 in pending1, budget1, op1, st1, ck1, pw1.
  fold t2 in pending2, budget2, op2, st2, ck2, pw2.
  assert (rest1 : advance 0 t1 = t1) by (apply advance_nothing; rewrite ck1; exact inRange).
  assert (rest2 : advance 0 t2 = t2) by (apply advance_nothing; rewrite ck2; exact inRange).
  assert (zero1 : elapsed t1 = 0) by (unfold elapsed; rewrite st1, ck1; apply usub_self).
  assert (zero2 : elapsed t2 = 0) by (unfold elapsed; rewrite st2, ck2; apply usub_self).
  assert (first1 : phaseTimeout t1 = getCard1FromHomeMs s).
  { unfold phaseTimeout, getCard1FromHomeMs. rewrite op1, pw1. reflexivity. }
  assert (first2 : phaseTimeout t2 = getCard2FromHomeMs s).
  { unfold phaseTimeout, getCard2FromHomeMs. rewrite op2, pw2. reflexivity. }
  assert (left1 : timeLeft t1
                  = getCard1FromHomeMs s + getCard1TapPauseMs s + getCard1ToHomeMs s).
  { unfold timeToIdle in budget1. unfold timeLeft.
    assert (timedPhase t1 = true) as tp by (unfold timedPhase; rewrite op1; reflexivity).
    rewrite tp in *.
    assert (laterPhases t1 = 2) as two by (unfold laterPhases; rewrite op1; reflexivity).
    rewrite two in budget1. lia. }
  assert (left2 : timeLeft t2
                  = getCard2FromHomeMs s + getCard2TapPauseMs s + getCard2ToHomeMs s).
  { unfold timeToIdle in budget2. unfold timeLeft.
    assert (timedPhase t2 = true) as tp by (unfold timedPhase; rewrite op2; reflexivity).
    rewrite tp in *.
    assert (laterPhases t2 = 2) as two by (unfold laterPhases; rewrite op2; reflexivity).
    rewrite two in budget2. lia. }
  repeat split.
  - intros short.
    pose proof (polls_within_phase gap ds gappos room gaps t1 0 (Z.le_refl 0)) as quiet.
    rewrite rest1 in quiet. apply quiet; [exact pending1 | lia].
  - intros short done.
    pose proof (polls_stay_busy gap ds gappos room gaps t1 pending1) as busy.
    rewrite left1 in busy. specialize (busy short).
    unfold timedPhase in busy. rewrite done in busy. discriminate.
  - intros short.
    pose proof (polls_within_phase gap ds gappos room gaps t2 0 (Z.le_refl 0)) as quiet.
    rewrite rest2 in quiet. apply quiet; [exact pending2 | lia].
  - intros short done.
    pose proof (polls_stay_busy gap ds gappos room gaps t2 pending2) as busy.
    rewrite left2 in busy. specialize (busy short).
    unfold timedPhase in busy. rewrite done in busy. discriminate.
Qed.

Lemma tap_takes_its_full_duration_witness :
  let s := exec captureCurrentAsMiddle (exec init (constructed 4294967000)) in
  polls [99; 99; 99; 99] (exec tapCard1 s) = advance 396 (exec tapCard1 s)
  /\ currentOperation (polls [99; 99; 99; 99; 2800] (exec tapCard1 s)) <> IDLE.
Proof.
  set (s := exec captureCurrentAsMiddle (exec init (constructed 4294967000))).
  assert (gaps : Forall (fun d => 0 < d <= 2800) [99; 99; 99; 99; 2800])
    by (repeat (apply Forall_cons; [lia |]); apply Forall_nil).
  assert (gaps' : Forall (fun d => 0 < d <= 2800) [99; 99; 99; 99])
    by (repeat (apply Forall_cons; [lia |]); apply Forall_nil).
  assert (inRange : 0 <= clock s < ULONG_RANGE) by (vm_compute; split; [discriminate | reflexivity]).
  cbv zeta. split.
  - destruct (tap_takes_its_full_duration 2800 [99; 99; 99; 99] s
                eq_refl eq_refl inRange eq_refl eq_refl gaps') as (quiet & _).
    apply quiet. vm_compute. reflexivity.
  - destruct (tap_takes_its_full_duration 2800 [99; 99; 99; 99; 2800] s
                eq_refl eq_refl inRange eq_refl eq_refl gaps) as (_ & busy & _).
    apply busy. vm_compute. reflexivity.
Defined.

(** ** The legacy tap *)

Lemma tapPoll_progress (gap d : Z) (s : MotorController) :
  0 < d <= gap ->
  0 <= tapTimeout s -> 0 <= tapPauseDelay s ->
  gap + tapTimeout s < ULONG_RANGE -> gap + tapPauseDelay s < ULONG_RANGE ->
  tapPending s -> tapSettled s ->
  let s' := tapPoll d s in
  tapPending s' /\ tapSettled s'
  /\ tapBudget gap s' <= Z.max 0 (tapBudget gap s - d)
  /\ tapTimeout s' = tapTimeout s /\ tapPauseDelay s' = tapPauseDelay s
  /\ currentPosition s' = currentPosition s /\ currentOperation s' = currentOperation s.
Proof.
  intros gapd to pd roomT roomP pending settled.
  pose proof (usub_range (clock s) (tapStartTime s)) as range.
  assert (grows : forall bound, usub (clock s) (tapStartTime s) <= bound ->
                                gap + bound < ULONG_RANGE ->
                                usub ((clock s + d) mod ULONG_RANGE) (tapStartTime s)
                                = usub (clock s) (tapStartTime s) + d).
  { intros bound small room. rewrite usub_advance. apply Z.mod_small. lia. }
  fields s. unfold tapPending, tapSettled, tapBudget in *.
  cbn [tapState clock tapStartTime tapTimeout tapPauseDelay currentState] in *.
  destruct tst; run; decide_tests; rewrite ?usub_self;
    try (rewrite (grows _ pending) in * by assumption);
    repeat split; try assumption; try reflexivity; try lia.
Qed.

Lemma tapBudget_positive (gap : Z) (s : MotorController) :
  0 < gap -> 0 <= tapTimeout s -> 0 <= tapPauseDelay s ->
  tapPending s -> tapState s <> TAP_IDLE -> 0 < tapBudget gap s.
Proof.
  intros gappos to pd pending busy. unfold tapBudget, tapPending in *.
  destruct (tapState s); try congruence; lia.
Qed.

Lemma tapPolls_complete (gap : Z) (ds : list Z) :
  0 < gap ->
  Forall (fun d => 0 < d <= gap) ds ->
  forall s : MotorController,
  0 <= tapTimeout s -> 0 <= tapPauseDelay s ->
  gap + tapTimeout s < ULONG_RANGE -> gap + tapPauseDelay s < ULONG_RANGE ->
  tapPending s -> tapSettled s ->
  tapBudget gap s <= total ds ->
  let s' := tapPolls ds s in
  tapState s' = TAP_IDLE /\ currentState s' = STATE_IDLE
  /\ currentPosition s' = currentPosition s /\ currentOperation s' = currentOperation s.
Proof.
  intros gappos gaps.
  induction gaps as [| d ds dgap gaps IH]; intros s to pd roomT roomP pending settled enough;
    cbn [tapPolls total] in *; cbv zeta.
  - destruct (tapState s) eqn:state.
    + unfold tapSettled in settled. rewrite state in settled. auto.
    + pose proof (tapBudget_positive gap s gappos to pd pending). rewrite state in *.
      assert (0 < tapBudget gap s) by (apply H; discriminate). lia.
    + pose proof (tapBudget_positive gap s gappos to pd pending). rewrite state in *.
      assert (0 < tapBudget gap s) by (apply H; discriminate). lia.
    + pose proof (tapBudget_positive gap s gappos to pd pending). rewrite state in *.
      assert (0 < tapBudget gap s) by (apply H; discriminate). lia.
    + pose proof (tapBudget_positive gap s gappos to pd pending). rewrite state in *.
      assert (0 < tapBudget gap s) by (apply H; discriminate). lia.
  - destruct (tapPoll_progress gap d s dgap to pd roomT roomP pending settled)
      as (pending' & settled' & less & sameT & sameP & samePos & sameOp).
    pose proof (total_nonneg gap ds gaps) as nonneg.
    destruct (IH (tapPoll d s)) as (idle & stopped & pos' & op'); try assumption;
      try (rewrite ?sameT, ?sameP; assumption); try lia.
    repeat split; congruence.
Qed.

(** startTap() starts extending whatever the state (it has no guard).
    Polled by updateTap() under an advancing clock, the tap is over, with
    the drive stopped, once the extend timeout, the pause and the retract
    timeout (each one millisecond longer than its setting, the comparisons
    being strict) and four poll gaps have passed.  Position and Operation
    of the dual-card sequencer are never touched. *)
Theorem legacy_tap_completes (gap : Z) (ds : list Z) (s : MotorController) :
  0 <= tapTimeout s -> 0 <= tapPauseDelay s ->
  0 < gap ->
  gap + tapTimeout s < ULONG_RANGE -> gap + tapPauseDelay s < ULONG_RANGE ->
  Forall (fun d => 0 < d <= gap) ds ->
  let t := exec startTap s in
  (tapState t = TAP_EXTENDING /\ currentState t = STATE_EXTENDING)
  /\ ((tapTimeout s + 1) + (tapPauseDelay s + 1) + (tapTimeout s + 1) + 4 * gap
        <= total ds ->
      tapState (tapPolls ds t) = TAP_IDLE
      /\ currentState (tapPolls ds t) = STATE_IDLE
      /\ currentPosition (tapPolls ds t) = currentPosition s
      /\ currentOperation (tapPolls ds t) = currentOperation s).
Proof.
  intros to pd gappos roomT roomP gaps t.
  assert (start : tapState t = TAP_EXTENDING /\ currentState t = STATE_EXTENDING
                  /\ tapStartTime t = clock t
                  /\ tapTimeout t = tapTimeout s /\ tapPauseDelay t = tapPauseDelay s
                  /\ currentPosition t = currentPosition s
                  /\ currentOperation t = currentOperation s).
  { subst t. fields s. repeat split. }
  destruct start as (state & drive & fresh & sameT & sameP & samePos & sameOp).
  split; [split; assumption |].
  intros enough.
  destruct (tapPolls_complete gap ds gappos gaps t) as (idle & stopped & pos' & op').
  - rewrite sameT. exact to.
  - rewrite sameP. exact pd.
  - rewrite sameT. exact roomT.
  - rewrite sameP. exact roomP.
  - unfold tapPending. rewrite state, fresh, usub_self, sameT. exact to.
  - unfold tapSettled. rewrite state. exact I.
  - unfold tapBudget. rewrite state, fresh, usub_self, sameT, sameP. lia.
  - repeat split; congruence.
Qed.

Lemma legacy_tap_completes_witness :
  let s := exec init (constructed 4294966000) in
  tapState (tapPolls [1000; 1000; 1000; 1000; 1000; 1000; 1000; 1000; 203]
                     (exec startTap s)) = TAP_IDLE
  /\ currentState (tapPolls [1000; 1000; 1000; 1000; 1000; 1000; 1000; 1000; 203]
                            (exec startTap s)) = STATE_IDLE.
Proof.
  assert (gaps : Forall (fun d => 0 < d <= 1000)
                        [1000; 1000; 1000; 1000; 1000; 1000; 1000; 1000; 203])
    by (repeat (apply Forall_cons; [lia |]); apply Forall_nil).
  destruct (legacy_tap_completes 1000 _ (exec init (constructed 4294966000))
              ltac:(vm_compute; discriminate) ltac:(vm_compute; discriminate)
              eq_refl eq_refl eq_refl gaps) as (_ & done).
  destruct done as (idle & stopped & _).
  - vm_compute. discriminate.
  - cbv zeta. split; [exact idle | exact stopped].
Defined.

(** ** Timed operations *)

Lemma timedPoll_without_operation (d : Z) (s : MotorController) :
  timedOperation s = false -> timedPoll d s = advance d s.
Proof. intros none. fields s. subst. reflexivity. Qed.

Lemma timedPolls_without_operation (ds : list Z) :
  forall s : MotorController,
  timedOperation s = false ->
  let s' := timedPolls ds s in
  timedOperation s' = false /\ currentState s' = currentState s
  /\ mqttLog s' = mqttLog s.
Proof.
  induction ds as [| d ds IH]; intros s none; cbn [timedPolls]; cbv zeta.
  - repeat split; assumption.
  - rewrite (timedPoll_without_operation d s none).
    specialize (IH (advance d s)). fields s. apply IH. exact none.
Qed.

Lemma timedPolls_running (gap : Z) (ds : list Z) :
  Forall (fun d => 0 < d <= gap) ds ->
  forall s : MotorController,
  timedOperation s = true ->
  operationDuration s < ULONG_RANGE ->
  usub (clock s) (operationStartTime s) + total ds < operationDuration s ->
  let s' := timedPolls ds s in
  timedOperation s' = true /\ currentState s' = currentState s
  /\ mqttLog s' = mqttLog s.
Proof.
  intros gaps. induction gaps as [| d ds dgap gaps IH]; intros s pending fits short;
    cbn [timedPolls total] in *; cbv zeta.
  - repeat split; assumption.
  - pose proof (total_nonneg gap ds gaps) as nonneg.
    pose proof (usub_range (clock s) (operationStartTime s)) as range.
    assert (grow : usub (clock (advance d s)) (operationStartTime s)
                   = usub (clock s) (operationStartTime s) + d).
    { fields s. unfold advance. cbn [set_clock clock]. rewrite usub_advance.
      apply Z.mod_small. lia. }
    rewrite (timedPoll_before_expiry d s pending) by lia.
    specialize (IH (advance d s)).
    assert (same : operationStartTime (advance d s) = operationStartTime s
                   /\ operationDuration (advance d s) = operationDuration s
                   /\ timedOperation (advance d s) = timedOperation s
                   /\ currentState (advance d s) = currentState s
                   /\ mqttLog (advance d s) = mqttLog s) by (fields s; repeat split).
    destruct same as (e1 & e2 & e3 & e4 & e5).
    rewrite e1, e2, e3, e4, e5, grow in IH. apply IH; [assumption | assumption | lia].
Qed.

Lemma timedPolls_expire (gap : Z) (ds : list Z) :
  0 < gap ->
  Forall (fun d => 0 < d <= gap) ds ->
  forall s : MotorController,
  timedOperation s = true ->
  gap + operationDuration s < ULONG_RANGE ->
  usub (clock s) (operationStartTime s) <= operationDuration s ->
  operationDuration s - usub (clock s) (operationStartTime s) + gap <= total ds ->
  let s' := timedPolls ds s in
  timedOperation s' = false /\ currentState s' = STATE_IDLE
  /\ mqttLog s' = (mqttLog s ++ [publishStatus "idle";
                                 publishStatus (completionStatus (timedOperationState s))])%list.
Proof.
  intros gappos gaps.
  induction gaps as [| d ds dgap gaps IH]; intros s pending room notyet enough;
    cbn [timedPolls total] in *; cbv zeta.
  - lia.
  - pose proof (total_nonneg gap ds gaps) as nonneg.
    pose proof (usub_range (clock s) (operationStartTime s)) as range.
    assert (grow : usub (clock (advance d s)) (operationStartTime s)
                   = usub (clock s) (operationStartTime s) + d).
    { fields s. unfold advance. cbn [set_clock clock]. rewrite usub_advance.
      apply Z.mod_small. lia. }
    destruct (Z.lt_ge_cases (usub (clock (advance d s)) (operationStartTime s))
                            (operationDuration s)) as [early | due].
    + rewrite (timedPoll_before_expiry d s pending early).
      specialize (IH (advance d s)).
      assert (same : operationStartTime (advance d s) = operationStartTime s
                     /\ operationDuration (advance d s) = operationDuration s
                     /\ timedOperation (advance d s) = timedOperation s
                     /\ timedOperationState (advance d s) = timedOperationState s
                     /\ mqttLog (advance d s) = mqttLog s) by (fields s; repeat split).
      destruct same as (e1 & e2 & e3 & e4 & e5).
      rewrite e1, e2, e3, e4, e5, grow in IH. apply IH; try assumption; lia.
    + destruct (timedPoll_at_expiry d s pending due) as (over & stopped & _ & _ & log).
      destruct (timedPolls_without_operation ds (timedPoll d s) over) as (f1 & f2 & f3).
      repeat split; congruence.
Qed.

(** extendForTime() and retractForTime() drive for the given duration.  A
    timed operation that was still outstanding is replaced without its
    completion status ever being published (only "idle").  Polled by
    updateTimedOperations() under an advancing clock, the drive keeps
    running and nothing is published while less than the duration has
    passed; once the duration and one poll gap have passed the drive has
    been stopped and "idle" and the completion status have been published,
    once. *)
Theorem timed_operation_runs_its_duration
    (gap duration_ms : Z) (ds : list Z) (s : MotorController) :
  0 <= duration_ms -> 0 < gap -> gap + duration_ms < ULONG_RANGE ->
  Forall (fun d => 0 < d <= gap) ds ->
  forall (start : Method unit) (drive : State) (going finished : string),
  (start, drive, going, finished)
    = (extendForTime duration_ms, STATE_EXTENDING, "extending", "extend_complete")
  \/ (start, drive, going, finished)
     = (retractForTime duration_ms, STATE_RETRACTING, "retracting", "retract_complete") ->
  let t := exec start s in
  (currentState t = drive /\ timedOperation t = true
   /\ mqttLog t = (mqttLog s ++ (if timedOperation s then [publishStatus "idle"] else [])
                   ++ [publishStatus going])%list)
  /\ (total ds < duration_ms ->
      currentState (timedPolls ds t) = drive
      /\ timedOperation (timedPolls ds t) = true
      /\ mqttLog (timedPolls ds t) = mqttLog t)
  /\ (duration_ms + gap <= total ds ->
      currentState (timedPolls ds t) = STATE_IDLE
      /\ timedOperation (timedPolls ds t) = false
      /\ mqttLog (timedPolls ds t)
         = (mqttLog t ++ [publishStatus "idle"; publishStatus finished])%list).
Proof.
  intros nonneg gappos room gaps start drive going finished which t.
  assert (begun : currentState t = drive /\ timedOperation t = true
                  /\ mqttLog t = (mqttLog s
                                  ++ (if timedOperation s then [publishStatus "idle"] else [])
                                  ++ [publishStatus going])%list
                  /\ operationStartTime t = clock t
                  /\ operationDuration t = duration_ms
                  /\ completionStatus (timedOperationState t) = finished).
  { subst t. fields s.
    destruct which as [e | e]; inversion e; subst; destruct timed; run;
      rewrite <- ?app_assoc; repeat split. }
  destruct begun as (cs & flag & log & fresh & dur & kind).
  split; [repeat split; assumption |]. split.
  - intros short.
    destruct (timedPolls_running gap ds gaps t flag) as (f1 & f2 & f3).
    + rewrite dur. lia.
    + rewrite fresh, usub_self, dur. lia.
    + repeat split; congruence.
  - intros enough.
    destruct (timedPolls_expire gap ds gappos gaps t flag) as (f1 & f2 & f3).
    + rewrite dur. exact room.
    + rewrite fresh, usub_self, dur. exact nonneg.
    + rewrite fresh, usub_self, dur. lia.
    + rewrite kind in f3. repeat split; assumption.
Qed.

Lemma timed_operation_runs_its_duration_witness :
  let s := exec (retractForTime 9000) (exec init (constructed 4294967290)) in
  let t := exec (extendForTime 700) (advance 50 s) in
  mqttLog t = [publishStatus "idle"; publishStatus "retracting"; publishStatus "idle";
               publishStatus "extending"]
  /\ currentState (timedPolls [300; 300; 99] t) = STATE_EXTENDING
  /\ mqttLog (timedPolls [300; 300; 300; 300] t)
     = (mqttLog t ++ [publishStatus "idle"; publishStatus "extend_complete"])%list.
Proof.
  set (s := advance 50 (exec (retractForTime 9000) (exec init (constructed 4294967290)))).
  assert (early : Forall (fun d => 0 < d <= 300) [300; 300; 99])
    by (repeat (apply Forall_cons; [lia |]); apply Forall_nil).
  assert (late : Forall (fun d => 0 < d <= 300) [300; 300; 300; 300])
    by (repeat (apply Forall_cons; [lia |]); apply Forall_nil).
  cbv zeta. split; [reflexivity |]. split.
  - destruct (timed_operation_runs_its_duration 300 700 [300; 300; 99] s
                ltac:(lia) eq_refl eq_refl early
                (extendForTime 700) STATE_EXTENDING "extending" "extend_complete"
                (or_introl eq_refl)) as (_ & running & _).
    destruct running as (drive & _); [reflexivity | exact drive].
  - destruct (timed_operation_runs_its_duration 300 700 [300; 300; 300; 300] s
                ltac:(lia) eq_refl eq_refl late
                (extendForTime 700) STATE_EXTENDING "extending" "extend_complete"
                (or_introl eq_refl)) as (_ & _ & expired).
    destruct expired as (_ & _ & log); [vm_compute; discriminate | exact log].
Defined.

(** ** Manual operation *)

Lemma update_during_manual_operation (d : Z) (c : Call) (s : MotorController) :
  isUpdate c = true ->
  currentOperation s = MANUAL_OPERATION ->
  timedOperation s = false -> tapState s = TAP_IDLE ->
  let s' := exec (call c) (advance d s) in
  currentOperation s' = MANUAL_OPERATION
  /\ timedOperation s' = false /\ tapState s' = TAP_IDLE
  /\ currentState s' = currentState s
  /\ currentPosition s' = currentPosition s
  /\ timingMeasurementActive s' = timingMeasurementActive s
  /\ manualTimingStart s' = manualTimingStart s
  /\ mqttLog s' = mqttLog s.
Proof.
  intros isUp manual none idle. fields s. subst.
  destruct c; try discriminate isUp; repeat split.
Qed.

(** manualExtend() and manualRetract() invalidate Position, enter
    ManualOperation and start the drive with the timing measurement
    running.  With no timed operation and no legacy tap outstanding,
    nothing the host loop polls ever stops the drive again: the sequencer
    has no phase to end, and the watchdog counts ManualOperation as a
    controlled operation, however long it lasts. *)
Theorem manual_operation_has_no_auto_stop (steps : list (Z * Call)) (s : MotorController) :
  timedOperation s = false -> tapState s = TAP_IDLE ->
  Forall (fun step => isUpdate (snd step) = true) steps ->
  forall (manual : Method unit) (drive : State),
  (manual, drive) = (manualExtend, STATE_EXTENDING)
  \/ (manual, drive) = (manualRetract, STATE_RETRACTING) ->
  let m := exec manual s in
  let s' := history steps m in
  (currentPosition m = UNKNOWN /\ currentOperation m = MANUAL_OPERATION
   /\ currentState m = drive /\ timingMeasurementActive m = true
   /\ manualTimingStart m = clock s)
  /\ currentState s' = drive
  /\ currentOperation s' = MANUAL_OPERATION
  /\ currentPosition s' = UNKNOWN
  /\ mqttLog s' = mqttLog m.
Proof.
  intros none idle updates manual drive which m s'.
  assert (begun : currentPosition m = UNKNOWN /\ currentOperation m = MANUAL_OPERATION
                  /\ currentState m = drive /\ timingMeasurementActive m = true
                  /\ manualTimingStart m = clock s
                  /\ timedOperation m = false /\ tapState m = TAP_IDLE).
  { subst m. fields s. subst.
    destruct which as [e | e]; inversion e; subst; destruct op; repeat split. }
  destruct begun as (pos & op & cs & active & since & none' & idle').
  split; [repeat split; assumption |].
  subst s'. clearbody m. clear which since active.
  revert m pos op cs none' idle'.
  induction updates as [| (d, c) rest isUp updates IH]; intros m pos op cs none' idle';
    cbn [history].
  - repeat split; assumption.
  - cbn [snd] in isUp.
    destruct (update_during_manual_operation d c m isUp op none' idle')
      as (op' & none'' & idle'' & cs' & pos' & _ & _ & log').
    destruct (IH (exec (call c) (advance d m))) as (a & b & e & f); try congruence.
    repeat split; congruence.
Qed.

Lemma manual_operation_has_no_auto_stop_witness :
  let s := exec init (constructed 0) in
  currentState (history [(3000, CheckLimitSwitches); (3000, UpdateDualCardOperations);
                         (3000, CheckLimitSwitches); (60000, UpdateTimedOperations);
                         (1, UpdateTap); (1, CheckLimitSwitches)]
                        (exec manualRetract s)) = STATE_RETRACTING.
Proof.
  destruct (manual_operation_has_no_auto_stop
              [(3000, CheckLimitSwitches); (3000, UpdateDualCardOperations);
               (3000, CheckLimitSwitches); (60000, UpdateTimedOperations);
               (1, UpdateTap); (1, CheckLimitSwitches)]
              (exec init (constructed 0)) eq_refl eq_refl
              ltac:(repeat (apply Forall_cons; [reflexivity |]); apply Forall_nil)
              manualRetract STATE_RETRACTING (or_intror eq_refl))
    as (_ & running & _).
  exact running.
Defined.

Lemma usub_after (c d : Z) : 0 <= d < ULONG_RANGE -> usub ((c + d) mod ULONG_RANGE) c = d.
Proof.
  intros inRange. rewrite usub_advance, usub_self. apply Z.mod_small. exact inRange.
Qed.

(** The timing measurement of a manual operation: [d] milliseconds after
    manualExtend() or manualRetract(), getTimingInfo() reports [d] and
    manualStop() prints [d] as the captured value, also when the clock has
    rolled over in between; manualStop() stops the drive, returns to Idle,
    ends the measurement and leaves Position unknown. *)
Theorem manual_timing_measures_elapsed_time (d : Z) (s : MotorController) :
  0 <= d < ULONG_RANGE ->
  forall manual : Method unit, In manual [manualExtend; manualRetract] ->
  let later := advance d (exec manual s) in
  let stopped := exec manualStop later in
  getTimingInfo later = "Manual timing: " ++ String_of d ++ "ms (active since manual start)"
  /\ (exists before,
        serialLog stopped
        = (before ++ [("[Timing] CAPTURED: " ++ String_of d ++ "ms")%string;
                      "[Timing] Use this value in your timing constants"])%list)
  /\ getTimingInfo stopped = "No timing measurement active"
  /\ currentOperation stopped = IDLE
  /\ currentState stopped = STATE_IDLE
  /\ (pinIN1 stopped, pinIN2 stopped) = (LOW, LOW)
  /\ currentPosition stopped = UNKNOWN.
Proof.
  intros inRange manual which later stopped.
  pose proof (usub_after (clock s) d inRange) as measured.
  subst stopped later. cbn [In] in which. fields s.
  destruct which as [<- | [<- | []]]; destruct op; run; rewrite measured;
    (split; [reflexivity |]); (split; [| repeat split]);
    eexists; rewrite <- app_assoc; cbn [app]; reflexivity.
Qed.

Lemma manual_timing_measures_elapsed_time_witness :
  let later := advance 1284 (exec manualExtend (exec init (constructed 4294967000))) in
  clock later = 988
  /\ getTimingInfo later = "Manual timing: 1284ms (active since manual start)".
Proof.
  destruct (manual_timing_measures_elapsed_time 1284 (exec init (constructed 4294967000))
              ltac:(vm_compute; split; [discriminate | reflexivity])
              manualExtend (or_introl eq_refl)) as (info & _).
  cbv zeta. split; [reflexivity | exact info].
Defined.

(** ** Switching the power source *)

(** setPowerSourceUSB() and setPowerSource12V() change the profile flag and
    nothing else (apart from a serial line): every lookup reads the chosen
    table from then on, and the phase timer keeps its start.  A phase
    already in flight is therefore measured against the new profile: the
    next poll ends it exactly when the time elapsed since its start has
    reached the new profile's duration. *)
Theorem power_switch_retargets_phase_in_flight (d : Z) (s : MotorController) :
  let usb := exec setPowerSourceUSB s in
  let fast := exec setPowerSource12V s in
  (withoutSerial usb = withoutSerial (set_is12VPower false s)
   /\ withoutSerial fast = withoutSerial (set_is12VPower true s))
  /\ (forall entry : Duration,
        lookup entry usb = profileUSB entry /\ lookup entry fast = profile12V entry)
  /\ (elapsed usb = elapsed s /\ elapsed fast = elapsed s)
  /\ currentOperation (poll d usb)
     = (if timedPhase s && (elapsed (advance d s) >=? phaseTimeout (set_is12VPower false s))
        then nextOperation s else currentOperation s)
  /\ currentOperation (poll d fast)
     = (if timedPhase s && (elapsed (advance d s) >=? phaseTimeout (set_is12VPower true s))
        then nextOperation s else currentOperation s).
Proof.
  intros usb fast.
  pose proof (poll_spec d usb) as stepU. pose proof (poll_spec d fast) as stepF.
  cbv zeta in stepU, stepF.
  assert (sameU : timedPhase usb = timedPhase s
                  /\ elapsed (advance d usb) = elapsed (advance d s)
                  /\ phaseTimeout usb = phaseTimeout (set_is12VPower false s)
                  /\ nextOperation usb = nextOperation s
                  /\ currentOperation (advance d usb) = currentOperation s)
    by (subst usb; fields s; repeat split).
  assert (sameF : timedPhase fast = timedPhase s
                  /\ elapsed (advance d fast) = elapsed (advance d s)
                  /\ phaseTimeout fast = phaseTimeout (set_is12VPower true s)
                  /\ nextOperation fast = nextOperation s
                  /\ currentOperation (advance d fast) = currentOperation s)
    by (subst fast; fields s; repeat split).
  destruct sameU as (u1 & u2 & u3 & u4 & u5). destruct sameF as (f1 & f2 & f3 & f4 & f5).
  rewrite u1, u2, u3 in stepU. rewrite f1, f2, f3 in stepF.
  split; [subst usb fast; fields s; split; reflexivity |].
  split; [intros entry; subst usb fast; fields s; destruct entry; split; reflexivity |].
  split; [subst usb fast; fields s; split; reflexivity |].
  split.
  - destruct (timedPhase s
              && (elapsed (advance d s) >=? phaseTimeout (set_is12VPower false s))).
    + destruct stepU as (o & _). congruence.
    + rewrite stepU. exact u5.
  - destruct (timedPhase s
              && (elapsed (advance d s) >=? phaseTimeout (set_is12VPower true s))).
    + destruct stepF as (o & _). congruence.
    + rewrite stepF. exact f5.
Qed.

Example approach_outlasts_12V_duration_after_switch_to_USB :
  let s := exec tapCard1 (exec captureCurrentAsMiddle (exec init (constructed 0))) in
  let usb := exec setPowerSourceUSB (advance 500 s) in
  operations [600; 1429; 1] usb = [MOVING_TO_CARD1; MOVING_TO_CARD1; TAPPING_CARD1].
Proof. vm_compute. reflexivity. Qed.

(** ** The two status queries agree *)

(** isTapping() holds exactly when getState() returns something other than
    one of the three labels of the bare drive state. *)
Theorem isTapping_iff_state_label_is_not_basic (s : MotorController) :
  isTapping s = negb (existsb (String.eqb (getState s)) ["idle"; "extending"; "retracting"]).
Proof.
  fields s. unfold isTapping, getState, getOperationString.
  cbn [tapState timedOperation currentOperation timedOperationState currentState].
  destruct op, timed, tst; try reflexivity; destruct okind; try reflexivity;
    destruct cst; reflexivity.
Qed.

(** ** Reading the state back from the detailed status line *)

Ltac compare_lines H :=
  lazy -[String_of usub] in H; try discriminate H.

(** Two states with the same detailed status line have the same Position,
    the same Operation and the same power source, and a timing measurement
    is active in both or in neither: the line tells these apart. *)
Theorem detailed_status_identifies_state (s1 s2 : MotorController) :
  detailedStatus s1 = detailedStatus s2 ->
  currentPosition s1 = currentPosition s2
  /\ currentOperation s1 = currentOperation s2
  /\ is12VPower s1 = is12VPower s2
  /\ timingMeasurementActive s1 = timingMeasurementActive s2.
Proof.
  intros same. fields s1. fields' s2.
  unfold detailedStatus, getPositionString, getOperationString, getPowerSourceString,
    getTimingInfo in same.
  cbn [currentPosition currentOperation is12VPower timingMeasurementActive clock
       manualTimingStart] in same.
  destruct mactive, mactive'; destruct pos, pos'; compare_lines same.
  all: destruct op, op'; compare_lines same.
  all: destruct power, power'; compare_lines same.
  all: repeat split.
Qed.

Lemma detailed_status_identifies_state_witness :
  let s := exec tapCard2 (exec captureCurrentAsMiddle (exec init (constructed 0))) in
  detailedStatus s = "Position: middle, Operation: moving_to_card2, Power: 12V"
  /\ currentOperation (set_clock 77 (withoutSerial s)) = currentOperation s.
Proof.
  set (s := exec tapCard2 (exec captureCurrentAsMiddle (exec init (constructed 0)))).
  assert (same : detailedStatus (set_clock 77 (withoutSerial s)) = detailedStatus s)
    by (vm_compute; reflexivity).
  destruct (detailed_status_identifies_state _ _ same) as (_ & operation & _).
  split; [vm_compute; reflexivity | exact operation].
Defined.

(** ** JSON requests *)

(** A JSON request that does not parse, has no "action", or asks for a
    timed operation without "duration_ms" changes nothing but the serial
    log.  Whatever the request, afterwards the two outputs are as the drive
    state says. *)
Theorem json_request_errors_change_nothing (doc : JsonDocument) (s : MotorController) :
  (deserializationError doc <> None
   \/ docAction doc = None
   \/ ((docAction doc = Some "extend_for_time" \/ docAction doc = Some "retract_for_time")
       /\ docDuration doc = None) ->
   withoutSerial (exec (handleJsonCommand doc) s) = withoutSerial s)
  /\ (pinsFollowState s -> pinsFollowState (exec (handleJsonCommand doc) s)).
Proof.
  destruct doc as [err action duration]. unfold handleJsonCommand.
  cbn [deserializationError docAction docDuration]. split.
  - intros [bad | [none | ([timed | timed] & missing)]].
    + destruct err; [| congruence]. fields s. reflexivity.
    + subst. destruct err; fields s; reflexivity.
    + subst. destruct err; fields s; reflexivity.
    + subst. destruct err; fields s; reflexivity.
  - intros agree.
    destruct err as [text |]; [exact (println_keeps_pins _ s agree) |].
    destruct action as [action |]; [| exact (println_keeps_pins _ s agree)].
    rewrite exec_seq.
    pose proof (println_keeps_pins ("[Router] JSON Action: " ++ action) s agree) as logged.
    set (s1 := exec (Serial_println _) s) in *. clearbody s1.
    destruct (action =? "extend_for_time")%string.
    { destruct duration as [duration_ms |]; [| exact (println_keeps_pins _ s1 logged)].
      exact (proj1 (timed_calls_keep_pins s1 duration_ms logged)). }
    destruct (action =? "retract_for_time")%string.
    { destruct duration as [duration_ms |]; [| exact (println_keeps_pins _ s1 logged)].
      exact (proj1 (proj2 (timed_calls_keep_pins s1 duration_ms logged))). }
    destruct (action =? "tap")%string.
    { exact (proj1 (other_calls_keep_pins s1 logged)). }
    exact (call_keeps_pins (Command action) s1 logged).
Qed.

Lemma json_request_errors_change_nothing_witness :
  let s := exec tapCard1 (exec captureCurrentAsMiddle (exec init (constructed 0))) in
  let doc := {| deserializationError := None;
                docAction := Some "retract_for_time";
                docDuration := None |} in
  currentState (exec (handleJsonCommand doc) s) = STATE_EXTENDING
  /\ timedOperation (exec (handleJsonCommand doc) s) = false.
Proof.
  set (s := exec tapCard1 (exec captureCurrentAsMiddle (exec init (constructed 0)))).
  set (doc := {| deserializationError := None;
                 docAction := Some "retract_for_time";
                 docDuration := None |}).
  destruct (json_request_errors_change_nothing doc s) as (untouched & _).
  assert (same : withoutSerial (exec (handleJsonCommand doc) s) = withoutSerial s).
  { apply untouched. right. right. split; [right |]; reflexivity. }
  assert (drive : currentState (withoutSerial (exec (handleJsonCommand doc) s))
                  = STATE_EXTENDING) by (rewrite same; reflexivity).
  assert (flag : timedOperation (withoutSerial (exec (handleJsonCommand doc) s)) = false)
    by (rewrite same; reflexivity).
  split; [exact drive | exact flag].
Defined.

(** ** The device identifier *)

(** For a MAC address in the usual form the identifier is "tapper_"
    followed by the four characters of its last two groups: the last six
    characters of the address include two colons, which are then removed.
    (The comment in connect() gives a six-character example.)  For a string
    shorter than six characters the identifier is "tapper_" alone. *)
Theorem device_id_keeps_four_characters
    (a1 a2 b1 b2 c1 c2 d1 d2 e1 e2 f1 f2 : Ascii.ascii) (short : string) :
  (Forall (fun c => c <> ":"%char) [e1; e2; f1; f2] ->
   deviceIdFromMac (macAddress a1 a2 b1 b2 c1 c2 d1 d2 e1 e2 f1 f2)
   = "tapper_" ++ String e1 (String e2 (String f1 (String f2 ""))))
  /\ ((String.length short < 6)%nat -> deviceIdFromMac short = "tapper_").
Proof.
  split.
  - intros hex.
    inversion hex as [| ? ? n1 hex1]; subst. inversion hex1 as [| ? ? n2 hex2]; subst.
    inversion hex2 as [| ? ? n3 hex3]; subst. inversion hex3 as [| ? ? n4 _]; subst.
    apply Ascii.eqb_neq in n1, n2, n3, n4.
    unfold deviceIdFromMac, lastSixChars, macAddress.
    cbn [String.length Nat.ltb Nat.leb Nat.sub String.substring withoutColons].
    change (Ascii.eqb ":" ":") with true. cbn iota.
    rewrite n1, n2, n3, n4. reflexivity.
  - intros tooShort. unfold deviceIdFromMac, lastSixChars.
    apply Nat.ltb_lt in tooShort. rewrite tooShort. reflexivity.
Qed.

Lemma device_id_keeps_four_characters_witness :
  deviceIdFromMac "24:6F:28:5E:BC:2C" = "tapper_BC2C"
  /\ deviceIdFromMac "2C" = "tapper_".
Proof.
  destruct (device_id_keeps_four_characters "2" "4" "6" "F" "2" "8" "5" "E" "B" "C" "2" "C"
              "2C") as (usual & tooShort).
  split.
  - apply usual. repeat (apply Forall_cons; [discriminate |]). apply Forall_nil.
  - apply tooShort. cbn. lia.
Defined.
